(** * VictoriaMetrics operator: the VMRule reconciler and the manager start-up

  A shallow embedding of

  - [VMRuleReconciler.Reconcile] (package [operator], the VMRule controller),
  - [RunManager], [configureTLS], [getClientCacheOptions] and the readiness
    check registered by [RunManager] (package [manager]),

  together with the properties the specification states about them.

  The cluster API, the rate limiter, the selector matcher and the
  materializer are collaborators of the reconciler: they are taken as
  functions over an abstract world [W], and every call the reconciler makes
  is recorded in a trace of events, so that "is never invoked" and "is
  invoked" are statements about that trace. *)

From Stdlib Require Import ZArith Lia Ascii String.
From stdpp Require Import base option list strings gmap.

#[local] Set Warnings "-clear-no-such-hyp".

Local Open Scope Z_scope.

(** ** Kubernetes object model (the fields the reconciler reads) *)

Module Meta.

(** [time.Time] as an instant counted from Go's zero instant
    (January 1, year 1, 00:00:00 UTC); [Time.IsZero] holds of that instant
    only. *)
Definition Time := Z.

Definition Time_IsZero (t : Time) : bool := Z.eqb t 0.

(** [metav1.Time.IsZero] has a pointer receiver: a nil pointer is zero. *)
Definition IsZero (t : option Time) : bool :=
  match t with
  | None => true
  | Some t => Time_IsZero t
  end.

Record LabelSelector := mkLabelSelector {
  MatchLabels : gmap string string
}.

Record ObjectMeta := mkObjectMeta {
  Name : string;
  Namespace : string;
  Labels : gmap string string;
  DeletionTimestamp : option Time
}.

Record NamespacedName := mkNamespacedName {
  nn_Namespace : string;
  nn_Name : string
}.

End Meta.
Import Meta.

Record VMAlertSpec := mkVMAlertSpec {
  ParsingError : string;
  SelectAllByDefault : bool;
  RuleSelector : option LabelSelector;
  RuleNamespaceSelector : option LabelSelector
}.

Record VMAlert := mkVMAlert {
  alert_meta : ObjectMeta;
  alert_spec : VMAlertSpec
}.

Record VMRule := mkVMRule {
  rule_meta : ObjectMeta
}.

(** [ctrl.Request] embeds a [types.NamespacedName]. *)
Record Request := mkRequest {
  req_NamespacedName : NamespacedName
}.

(** [ctrl.Result]; [RequeueAfter] is a [time.Duration] (nanoseconds). *)
Record Result := mkResult {
  Requeue : bool;
  RequeueAfter : Z
}.

(** The zero value [ctrl.Result{}]: no requeue is requested. *)
Definition Result_zero : Result := {| Requeue := false; RequeueAfter := 0 |}.

(** ** Errors

    An error is one produced by a collaborator (with the answer
    [apierrors.IsNotFound] gives on it), the reconciler's [getError] wrapper,
    a [fmt.Errorf] that wraps an error with [%w] after a message, a
    [fmt.Errorf] that quotes a string with [%q], or a plain message. *)
Inductive error : Type :=
| ExternalError (notFound : bool) (msg : string)
| getError (origin : error) (controller : string) (requestObject : Request)
| Errorf_w (msg : string) (wrapped : error)
| Errorf_q (format : string) (arg : string)
| errorString (msg : string).

(** [apierrors.IsNotFound] on the error of a collaborator. *)
Definition IsNotFound (err : error) : bool :=
  match err with
  | ExternalError notFound _ => notFound
  | _ => false
  end.

(** ** The reconciler's trace *)

Inductive Event : Type :=
| EvGet (key : NamespacedName)
| EvRegisterObjectStat (controller : string)
| EvMustThrottleReconcile
| EvList (namespaces : list string)
| EvMatch (parent : VMAlert)
| EvLogError (parent : VMAlert) (err : error) (msg : string)
| EvMaterialize (parent : VMAlert).

Definition is_match_event (e : Event) : bool :=
  match e with EvMatch _ => true | _ => false end.

Definition is_materialize_event (e : Event) : bool :=
  match e with EvMaterialize _ => true | _ => false end.

Definition is_list_event (e : Event) : bool :=
  match e with EvList _ => true | _ => false end.

(** The calls that read or write the cluster on behalf of the pass:
    listing, selector evaluation and materializing. *)
Definition is_pass_event (e : Event) : bool :=
  is_list_event e || is_match_event e || is_materialize_event e.

(** The candidate parent a selector evaluation, its error log or a
    materializer call is about. *)
Definition event_parent (e : Event) : option VMAlert :=
  match e with
  | EvMatch parent | EvLogError parent _ _ | EvMaterialize parent => Some parent
  | _ => None
  end.

(** ** Collaborators of the reconciler

    [W] is the state of everything outside the reconciler: the cluster as
    seen through [client.Client], the shared rate limiter and the metrics
    registry. Reads leave it unchanged; [RegisterObjectStat],
    [MustThrottleReconcile] and the materializer return the new state. *)
Record Collaborators (W : Type) := mkCollaborators {
  (** [r.Get(ctx, req.NamespacedName, instance)] *)
  client_Get : NamespacedName -> W -> error + VMRule;
  (** [RegisterObjectStat(instance, "vmrule")] *)
  RegisterObjectStat : VMRule -> string -> W -> W;
  (** [vmAlertRateLimiter.MustThrottleReconcile()] *)
  MustThrottleReconcile : W -> bool * W;
  (** [config.MustGetWatchNamespaces()] *)
  MustGetWatchNamespaces : list string;
  (** [k8stools.ListObjectsByNamespace]: the lists handed to the callback,
      one after the other, and the error that ended the listing, if any. *)
  ListObjectsByNamespace : list string -> W -> list (list VMAlert) * option error;
  (** [isSelectorsMatchesTargetCRD(ctx, r.Client, instance, currVMAlert,
      currVMAlert.Spec.RuleSelector, currVMAlert.Spec.RuleNamespaceSelector)] *)
  isSelectorsMatchesTargetCRD :
    VMRule -> VMAlert -> option LabelSelector -> option LabelSelector -> W -> error + bool;
  (** [vmalert.CreateOrUpdateRuleConfigMaps(ctx, currVMAlert, r)]; the
      returned config-map names are dropped by the caller. *)
  CreateOrUpdateRuleConfigMaps : VMAlert -> W -> option error * W
}.

Arguments client_Get {W}.
Arguments RegisterObjectStat {W}.
Arguments MustThrottleReconcile {W}.
Arguments MustGetWatchNamespaces {W}.
Arguments ListObjectsByNamespace {W}.
Arguments isSelectorsMatchesTargetCRD {W}.
Arguments CreateOrUpdateRuleConfigMaps {W}.

(** Modelled from the spec: [handleReconcileErr], the deferred handler every
    reconcile result goes through, is not among the sources. The
    specification's error taxonomy fixes what it does with the result and the
    error of a reconcile: a fetch that reports not-found is terminal
    ("no error, no requeue"), every other failure is "surfaced as an error
    from the reconcile", and a reconcile without error keeps its result. *)
Definition handleReconcileErr (originResult : Result) (err : option error)
  : Result * option error :=
  match err with
  | None => (originResult, None)
  | Some (getError origin controller requestObject) =>
      if IsNotFound origin then (originResult, None)
      else (originResult, Some (getError origin controller requestObject))
  | Some e => (originResult, Some e)
  end.

(** ** [VMRuleReconciler.Reconcile] *)

Section Reconciler.

Context {W : Type} (K : Collaborators W).

(** What one iteration of the [for] loop does to the control flow:
    [continue] / fall through to the next item, or [return]. *)
Inductive Control : Type :=
| Next
| Return (result : Result) (err : option error).

(** A candidate the loop skips at its head: one being deleted, or one
    carrying a parsing error. *)
Definition skipped (vmalertItem : VMAlert) : bool :=
  bool_decide (DeletionTimestamp (alert_meta vmalertItem) ≠ None)
  || bool_decide (ParsingError (alert_spec vmalertItem) ≠ "").

(** The guard of the selector check. *)
Definition checks_selector (instance : VMRule) (currVMAlert : VMAlert) : bool :=
  IsZero (DeletionTimestamp (rule_meta instance))
  && negb (SelectAllByDefault (alert_spec currVMAlert)).

(** The call of the materializer and the [return] on its failure. *)
Definition materialize (currVMAlert : VMAlert) (w : W)
  : Control * W * list Event :=
  match CreateOrUpdateRuleConfigMaps K currVMAlert w with
  | (Some err, w') =>
      (Return Result_zero (Some (Errorf_w "cannot update rules configmaps" err)),
       w', [EvMaterialize currVMAlert])
  | (None, w') => (Next, w', [EvMaterialize currVMAlert])
  end.

(** The body of the loop over [objects.Items]. *)
Definition loopBody (instance : VMRule) (vmalertItem : VMAlert) (w : W)
  : Control * W * list Event :=
  if skipped vmalertItem then (Next, w, [])
  else
    let currVMAlert := vmalertItem in
    if checks_selector instance currVMAlert then
      match isSelectorsMatchesTargetCRD K instance currVMAlert
              (RuleSelector (alert_spec currVMAlert))
              (RuleNamespaceSelector (alert_spec currVMAlert)) w with
      | inl err =>
          (Next, w,
           [EvMatch currVMAlert;
            EvLogError currVMAlert err "cannot match vmalert and vmRule"])
      | inr false => (Next, w, [EvMatch currVMAlert])
      | inr true =>
          let '(c, w', tr) := materialize currVMAlert w in
          (c, w', EvMatch currVMAlert :: tr)
      end
    else materialize currVMAlert w.

(** The loop over [objects.Items]: [Next] when it runs to its end, the
    [return] of the iteration that left it otherwise. *)
Fixpoint loop (instance : VMRule) (items : list VMAlert) (w : W)
  : Control * W * list Event :=
  match items with
  | [] => (Next, w, [])
  | vmalertItem :: items' =>
      match loopBody instance vmalertItem w with
      | (Next, w', tr) =>
          let '(c, w'', tr') := loop instance items' w' in
          (c, w'', tr ++ tr')
      | (Return result err, w', tr) => (Return result err, w', tr)
      end
  end.

(** The bare [return] after the loop gives the named results, which are
    still the zero result and a nil error there. *)
Definition returned (c : Control) : Result * option error :=
  match c with
  | Next => (Result_zero, None)
  | Return result err => (result, err)
  end.

(** The callback given to [ListObjectsByNamespace] appends each list it
    receives to [objects.Items]. *)
Definition collect (lists : list (list VMAlert)) : list VMAlert :=
  foldl (fun items dst => items ++ dst) [] lists.

(** The admission gate as [Reconcile] asks it: after the object statistic
    was registered. Its answer, and the world it leaves. *)
Definition gate (instance : VMRule) (w : W) : bool * W :=
  MustThrottleReconcile K (RegisterObjectStat K instance "vmrule" w).

(** The events of every reconcile that fetched its target. *)
Definition fetched (req : Request) : list Event :=
  [EvGet (req_NamespacedName req); EvRegisterObjectStat "vmrule";
   EvMustThrottleReconcile].

(** The body of [Reconcile], before the deferred handler runs. *)
Definition reconcileBody (req : Request) (w : W)
  : (Result * option error) * W * list Event :=
  let key := req_NamespacedName req in
  match client_Get K key w with
  | inl err => ((Result_zero, Some (getError err "vmrule" req)), w, [EvGet key])
  | inr instance =>
      let w1 := RegisterObjectStat K instance "vmrule" w in
      let '(throttle, w2) := MustThrottleReconcile K w1 in
      let pre := [EvGet key; EvRegisterObjectStat "vmrule"; EvMustThrottleReconcile] in
      if throttle then ((Result_zero, None), w2, pre)
      else
        let nss := MustGetWatchNamespaces K in
        match ListObjectsByNamespace K nss w2 with
        | (_, Some err) =>
            ((Result_zero, Some (Errorf_w "cannot list vmauths for vmuser" err)),
             w2, pre ++ [EvList nss])
        | (lists, None) =>
            let '(c, w3, tr) := loop instance (collect lists) w2 in
            (returned c, w3, pre ++ EvList nss :: tr)
        end
  end.

(** [Reconcile]: the body, then the deferred [handleReconcileErr] on the
    named results. *)
Definition Reconcile (req : Request) (w : W)
  : (Result * option error) * W * list Event :=
  let '((result, err), w', tr) := reconcileBody req w in
  (handleReconcileErr result err, w', tr).

End Reconciler.


(** ** Package [manager] *)

Module Manager.

(** *** Flags

    The command-line flags of [managerFlags] that [RunManager],
    [configureTLS] and [getClientCacheOptions] read. *)
Record Flags := mkFlags {
  leaderElect : bool;
  enableWebhooks : bool;
  disableCRDOwnership : bool;
  tlsEnable : bool;
  tlsCertsDir : string;
  mtlsEnable : bool;
  mtlsCAFile : string;
  printDefaults : bool;
  printFormat : string;
  disableCacheForObjects : string;
  version : bool
}.

(** The defaults given at the declaration of the flags. *)
Definition defaultFlags : Flags := {|
  leaderElect := false;
  enableWebhooks := false;
  disableCRDOwnership := false;
  tlsEnable := false;
  tlsCertsDir := "/tmp/k8s-metrics-server/serving-certs";
  mtlsEnable := false;
  mtlsCAFile := "clietCA.crt";
  printDefaults := false;
  printFormat := "table";
  disableCacheForObjects := "";
  version := false
|}.

(** *** [getClientCacheOptions] *)

(** The values of [cacheClientObjectsByName]. *)
Inductive ClientObject : Type :=
| Secret | ConfigMap | Namespace | Pod | Deployment | StatefulSet.

Definition cacheClientObjectsByName : gmap string ClientObject :=
  list_to_map
    [("secret", Secret);
     ("configmap", ConfigMap);
     ("namespace", Namespace);
     ("pod", Pod);
     ("deployment", Deployment);
     ("statefulset", StatefulSet)].

(** [client.CacheOptions]: the field the function fills. *)
Record CacheOptions := mkCacheOptions {
  DisableFor : list ClientObject
}.

(** [strings.Split(s, sep)] for a separator of one byte: the pieces of [s]
    between the occurrences of [sep], empty pieces included; a string
    without [sep] — the empty one too — gives the one piece [s]. *)
Fixpoint Split (s : string) (sep : ascii) : list string :=
  match s with
  | EmptyString => [EmptyString]
  | String c s' =>
      if Ascii.eqb c sep then EmptyString :: Split s' sep
      else
        match Split s' sep with
        | piece :: pieces => String c piece :: pieces
        | [] => [String c EmptyString]
        end
  end.

(** The [for] loop over the pieces: appends to [co.DisableFor] until a name
    is not a key of [cacheClientObjectsByName]. *)
Fixpoint disableLoop (objects : list string) (co : CacheOptions)
  : error + CacheOptions :=
  match objects with
  | [] => inr co
  | object :: objects' =>
      match cacheClientObjectsByName !! object with
      | None => inl (Errorf_q "not supported client object name=%q" object)
      | Some o => disableLoop objects' {| DisableFor := DisableFor co ++ [o] |}
      end
  end.

Definition getClientCacheOptions (disabledCacheObjects : string)
  : error + CacheOptions :=
  let co := {| DisableFor := [] |} in
  if bool_decide (0 < String.length disabledCacheObjects)%nat then
    let objects := Split disabledCacheObjects "," in
    disableLoop objects co
  else inr co.

(** The names the flag's help text gives as supported. *)
Definition supported : list string :=
  ["namespace"; "pod"; "secret"; "configmap"; "deployment"; "statefulset"].

(** [strings.Join(l, sep)] for a separator of one byte. *)
Fixpoint Join (l : list string) (sep : ascii) : string :=
  match l with
  | [] => EmptyString
  | [x] => x
  | x :: l' => x +:+ String sep (Join l' sep)
  end.

Fixpoint sep_free (sep : ascii) (s : string) : Prop :=
  match s with
  | EmptyString => True
  | String c s' => c ≠ sep ∧ sep_free sep s'
  end.

(** What "[x] is a comma-separated entry of the value [s]" says: [s] is not
    empty, and it is a list of comma-free entries, [x] among them, joined
    by commas. The empty value has no entries. *)
Definition entry_of (x s : string) : Prop :=
  s ≠ EmptyString ∧
  ∃ before after,
    Forall (sep_free ",") (before ++ x :: after) ∧
    s = Join (before ++ x :: after) ",".

(** *** [configureTLS] *)

(** The value given to [panic]: a constant message, or a [fmt.Sprintf] of a
    format with the CA file's name and a second argument. *)
Inductive panic : Type :=
| panic_msg (msg : string)
| panic_Sprintf (format : string) (caFile : string) (arg : string).

Inductive ClientAuthType : Type :=
| NoClientCert
| RequireAndVerifyClientCert.

(** [tls.Config]: the fields the option touches; a certificate pool is
    stood for by the PEM data it was filled from. *)
Record tlsConfig := mktlsConfig {
  ClientAuth : ClientAuthType;
  ClientCAs : option string
}.

(** What the option reads outside the program when it is applied. *)
Record Files := mkFiles {
  path_Join : string -> string -> string;
  os_ReadFile : string -> error + string;
  AppendCertsFromPEM : string -> bool
}.

Definition error_text (err : error) : string :=
  match err with
  | ExternalError _ msg => msg
  | getError _ controller _ => controller
  | Errorf_w msg _ => msg
  | Errorf_q format _ => format
  | errorString msg => msg
  end.

(** The function literal appended to [opts]: it runs when the metrics
    server builds its [tls.Config], not when [configureTLS] is called. *)
Definition mtlsOption (f : Flags) (fs : Files) (cfg : tlsConfig)
  : panic + tlsConfig :=
  let cfg := {| ClientAuth := RequireAndVerifyClientCert; ClientCAs := ClientCAs cfg |} in
  if bool_decide (mtlsCAFile f ≠ "") then
    let caFile := path_Join fs (tlsCertsDir f) (mtlsCAFile f) in
    match os_ReadFile fs caFile with
    | inl err => inl (panic_Sprintf "cannot read tlsCAFile=%q: %s" caFile (error_text err))
    | inr caPEM =>
        if negb (AppendCertsFromPEM fs caPEM) then
          inl (panic_Sprintf "cannot parse data for tlsCAFile=%q: %s" caFile caPEM)
        else inr {| ClientAuth := ClientAuth cfg; ClientCAs := Some caPEM |}
    end
  else inr cfg.

Definition configureTLS (f : Flags)
  : panic + list (Files -> tlsConfig -> panic + tlsConfig) :=
  let opts := [] in
  if mtlsEnable f then
    if negb (tlsEnable f) then
      inl (panic_msg "-tls.enable flag must be set before using mtls.enable")
    else inr (opts ++ [mtlsOption f])
  else inr opts.

(** *** [RunManager] *)

(** The resource kinds a reconciler or a webhook is registered for. *)
Inductive Kind : Type :=
| VMAgentK | VMAlertK | VMAlertmanagerK | VMPodScrapeK | VMRuleK
| VMServiceScrapeK | VMSingleK | VLogsK | VMClusterK | VMProbeK
| VMNodeScrapeK | VMStaticScrapeK | VMScrapeConfigK | VMAuthK | VMUserK
| VMAlertmanagerConfigK.

(** The reconcilers [RunManager] sets up, in the order of the source. *)
Definition controllers : list Kind :=
  [VMAgentK; VMAlertK; VMAlertmanagerK; VMPodScrapeK; VMRuleK;
   VMServiceScrapeK; VMSingleK; VLogsK; VMClusterK; VMProbeK;
   VMNodeScrapeK; VMStaticScrapeK; VMScrapeConfigK; VMAuthK; VMUserK;
   VMAlertmanagerConfigK].

(** The objects [addWebhooks] registers a webhook for, in its order. *)
Definition webhookObjects : list Kind :=
  [VMAgentK; VMAlertK; VMSingleK; VMClusterK; VLogsK; VMAlertmanagerK;
   VMAlertmanagerConfigK; VMAuthK; VMUserK; VMRuleK].

(** [cache.Config{}] *)
Inductive CacheConfig : Type := CacheConfig_zero.

(** The [ctrl.Options] that depend on the flags and on what was computed
    before [ctrl.NewManager]. *)
Record Options := mkOptions {
  SecureServing : bool;
  TLSOpts : list (Files -> tlsConfig -> panic + tlsConfig);
  LeaderElection : bool;
  DefaultNamespaces : option (gmap string CacheConfig);
  ClientCache : CacheOptions
}.

(** What start-up does outside the program, in the order it does it. *)
Inductive Step : Type :=
| PrintVersion
| MustGetBaseConfig
| PrintDefaults (format : string)
| SetLoggers
| RegisterMetrics
| MustGetWatchNamespaces
| InitDeadlines
| GetConfigOrDie
| NewManager (opts : Options)
| AddReadyzCheck
| AddHealthzCheck
| NewInitClient
| InitCRD
| WebhookComplete (obj : Kind)
| SetLabelAndAnnotationPrefixes
| SetupWithManager (controller : Kind)
| NewForConfig
| ServerVersion
| SetKubernetesVersionWithDefaults
| NewWithWatch
| NewConverterController
| MgrAdd
| MgrStart.

(** How [RunManager] ends: it returns, the process exits ([os.Exit]), or
    it panics. *)
Inductive Outcome : Type :=
| Returns (err : option error)
| Exits (code : Z)
| Panics (p : panic).

(** The answers of the collaborators of start-up: the parsed flags; for
    each call that can fail, its error; for the two [Must] getters of package
    [config], the panic they end in, if any; for [ctrl.GetConfigOrDie],
    whether it finds a configuration (it exits with status 1 otherwise). *)
Record Env := mkEnv {
  flags : Flags;
  env_MustGetBaseConfig : option panic;
  env_PrintDefaults : option error;
  env_MustGetWatchNamespaces : option panic;
  env_watchNss : list string;
  env_GetConfigOrDie : bool;
  env_NewManager : option error;
  env_AddReadyzCheck : option error;
  env_AddHealthzCheck : option error;
  env_client_New : option error;
  env_Init : option error;
  env_WebhookComplete : Kind -> option error;
  env_SetupWithManager : Kind -> option error;
  env_NewForConfig : option error;
  env_ServerVersion : option error;
  env_SetKubernetesVersionWithDefaults : option error;
  env_NewWithWatch : option error;
  env_NewConverterController : option error;
  env_mgr_Add : option error;
  env_mgr_Start : option error
}.

(** Start-up as a computation that logs its steps and may stop early. *)
Definition M (A : Type) : Type := list Step * (Outcome + A).

Definition ret {A} (a : A) : M A := ([], inr a).

Definition bind {A B} (k : A -> M B) (m : M A) : M B :=
  match m with
  | (tr, inl o) => (tr, inl o)
  | (tr, inr a) => let '(tr', r) := k a in (tr ++ tr', r)
  end.

#[export] Instance M_ret : MRet M := @ret.
#[export] Instance M_bind : MBind M := @bind.

Definition step (s : Step) : M unit := ([s], inr tt).

Definition stop {A} (o : Outcome) : M A := ([], inl o).

(** [if err := call; err != nil { return wrap(err) }] *)
Definition try (s : Step) (res : option error) (wrap : error -> error) : M unit :=
  step s ;;
  match res with
  | Some err => stop (Returns (Some (wrap err)))
  | None => ret tt
  end.

(** A call that panics instead of returning an error. *)
Definition must (s : Step) (res : option panic) : M unit :=
  step s ;;
  match res with
  | Some p => stop (Panics p)
  | None => ret tt
  end.

Definition when (b : bool) (m : M unit) : M unit :=
  if b then m else ret tt.

(** A [for] loop whose body may return. *)
Fixpoint forEach {A} (l : list A) (body : A -> M unit) : M unit :=
  match l with
  | [] => ret tt
  | x :: l' => body x ;; forEach l' body
  end.

(** [addWebhooks] *)
Definition addWebhooks (e : Env) : M unit :=
  forEach webhookObjects
    (fun obj => try (WebhookComplete obj) (env_WebhookComplete e obj) id).

(** The map [watchNsCacheByName]: nil unless namespaces are configured. *)
Definition watchNsCacheByName (watchNss : list string)
  : option (gmap string CacheConfig) :=
  if bool_decide (0 < length watchNss)%nat then
    Some (foldl (fun m ns => <[ns := CacheConfig_zero]> m) ∅ watchNss)
  else None.

(** Start-up gets as far as the cache options: neither the version nor
    the defaults are asked for, and the configuration is found. *)
Definition starts (e : Env) : Prop :=
  version (flags e) = false
  ∧ env_MustGetBaseConfig e = None
  ∧ printDefaults (flags e) = false
  ∧ env_MustGetWatchNamespaces e = None
  ∧ env_GetConfigOrDie e = true.

(** The steps taken by then. *)
Definition started : list Step :=
  [MustGetBaseConfig; SetLoggers; RegisterMetrics; MustGetWatchNamespaces;
   InitDeadlines; GetConfigOrDie].

(** [RunManager] is one long function; it is cut here where the
    specification names its phases. First everything up to the arguments
    of [ctrl.NewManager]: flags, logging, metrics, the cache options and
    the TLS options, which are evaluated before the call. *)
Definition prepare (e : Env)
  : M (CacheOptions * list (Files -> tlsConfig -> panic + tlsConfig)) :=
  let f := flags e in
  when (version f) (step PrintVersion ;; stop (Exits 0)) ;;
  must MustGetBaseConfig (env_MustGetBaseConfig e) ;;
  when (printDefaults f)
    (step (PrintDefaults (printFormat f)) ;;
     match env_PrintDefaults e with
     | Some _ => stop (Exits 1)
     | None => stop (Returns None)
     end) ;;
  step SetLoggers ;;
  step RegisterMetrics ;;
  must MustGetWatchNamespaces (env_MustGetWatchNamespaces e) ;;
  step InitDeadlines ;;
  step GetConfigOrDie ;;
  when (negb (env_GetConfigOrDie e)) (stop (Exits 1)) ;;
  co ← match getClientCacheOptions (disableCacheForObjects f) with
        | inl err =>
            stop (Returns (Some (Errorf_w "cannot build cache options for manager" err)))
        | inr co => ret co
        end;
  tlsOpts ← match configureTLS f with
             | inl p => stop (Panics p)
             | inr opts => ret opts
             end;
  ret (co, tlsOpts).

(** The manager and its two probes. *)
Definition createManager (e : Env)
    (co : CacheOptions) (tlsOpts : list (Files -> tlsConfig -> panic + tlsConfig))
  : M unit :=
  let f := flags e in
  try (NewManager {| SecureServing := tlsEnable f;
                     TLSOpts := tlsOpts;
                     LeaderElection := leaderElect f;
                     DefaultNamespaces := watchNsCacheByName (env_watchNss e);
                     ClientCache := co |})
      (env_NewManager e) id ;;
  try AddReadyzCheck (env_AddReadyzCheck e) (Errorf_w "cannot register ready endpoint") ;;
  try AddHealthzCheck (env_AddHealthzCheck e) (Errorf_w "cannot register health endpoint").

(** The guard of the CRD ownership block. *)
Definition ownsCRDs (e : Env) : bool :=
  negb (disableCRDOwnership (flags e)) && bool_decide (length (env_watchNss e) = 0%nat).

(** The CRD ownership block: a client of its own, then [vmv1beta1.Init]. *)
Definition initCRDOwnership (e : Env) : M unit :=
  when (ownsCRDs e)
    (try NewInitClient (env_client_New e) id ;;
     try InitCRD (env_Init e) id).

(** The sixteen [SetupWithManager] calls. *)
Definition setupControllers (e : Env) : M unit :=
  forEach controllers
    (fun k => try (SetupWithManager k) (env_SetupWithManager e k) id).

(** The converter and the start of the manager. *)
Definition startManager (e : Env) : M unit :=
  try NewForConfig (env_NewForConfig e) id ;;
  try ServerVersion (env_ServerVersion e) (Errorf_w "cannot get kubernetes server version") ;;
  step SetKubernetesVersionWithDefaults ;;
  try NewWithWatch (env_NewWithWatch e) (Errorf_w "cannot setup watch client") ;;
  try NewConverterController (env_NewConverterController e) id ;;
  try MgrAdd (env_mgr_Add e) id ;;
  try MgrStart (env_mgr_Start e) id.

(** What follows the CRD ownership block: webhooks, label prefixes, the
    reconcilers, the converter, the manager. *)
Definition registerAndStart (e : Env) : M unit :=
  when (enableWebhooks (flags e)) (addWebhooks e) ;;
  step SetLabelAndAnnotationPrefixes ;;
  setupControllers e ;;
  startManager e.

Definition runManager (e : Env) : M unit :=
  '(co, tlsOpts) ← prepare e;
  createManager e co tlsOpts ;;
  initCRDOwnership e ;;
  registerAndStart e.

(** [RunManager]: the steps taken and how it ended; falling off the end is
    the final [return nil]. *)
Definition RunManager (e : Env) : list Step * Outcome :=
  match runManager e with
  | (tr, inl o) => (tr, o)
  | (tr, inr _) => (tr, Returns None)
  end.

(** The block of [RunManager] a step belongs to. *)
Definition phase (s : Step) : nat :=
  match s with
  | PrintVersion | MustGetBaseConfig | PrintDefaults _ | SetLoggers
  | RegisterMetrics | MustGetWatchNamespaces | InitDeadlines | GetConfigOrDie => 0
  | NewManager _ | AddReadyzCheck | AddHealthzCheck => 1
  | NewInitClient | InitCRD => 2
  | WebhookComplete _ => 3
  | SetLabelAndAnnotationPrefixes | SetupWithManager _ => 4
  | NewForConfig | ServerVersion | SetKubernetesVersionWithDefaults
  | NewWithWatch | NewConverterController | MgrAdd | MgrStart => 5
  end.

(** *** The readiness check

    The function given to [mgr.AddReadyzCheck] reads and writes the
    package variable [wasCacheSynced] with [atomic.LoadUint32] and
    [atomic.StoreUint32]; the probe server runs it once per request, and
    requests may overlap. One run of it is cut at its atomic steps. *)
Inductive Probe : Type :=
| Called                                (* before [atomic.LoadUint32] *)
| Waiting                               (* loaded 0; in [WaitForCacheSync] *)
| Synced                                (* [ok] is true; before the store *)
| Done (err : option error) (waited : bool).

(** The shared variable and the runs of the check, oldest first. *)
Record Probes := mkProbes {
  wasCacheSynced : Z;
  runs : list Probe
}.

Definition startup : Probes := {| wasCacheSynced := 0; runs := [] |}.

Inductive Action : Type :=
| Request                               (* a request arrives, a run starts *)
| LoadSynced (i : nat)                        (* run [i] loads the variable *)
| WaitReturns (i : nat) (ok : bool)     (* [WaitForCacheSync] of run [i] returns *)
| StoreSynced (i : nat).                      (* run [i] stores 1 and returns nil *)

Definition set_run (s : Probes) (i : nat) (p : Probe) : Probes :=
  {| wasCacheSynced := wasCacheSynced s; runs := <[i := p]> (runs s) |}.

(** One atomic step; [None] when the run is not at that step. *)
Definition act (s : Probes) (a : Action) : option Probes :=
  match a with
  | Request =>
      Some {| wasCacheSynced := wasCacheSynced s; runs := runs s ++ [Called] |}
  | LoadSynced i =>
      match runs s !! i with
      | Some Called =>
          let wasSynced := wasCacheSynced s in
          if bool_decide (0 < wasSynced) then Some (set_run s i (Done None false))
          else Some (set_run s i Waiting)
      | _ => None
      end
  | WaitReturns i ok =>
      match runs s !! i with
      | Some Waiting =>
          if ok then Some (set_run s i Synced)
          else Some (set_run s i
                       (Done (Some (errorString "controller sync cache in progress")) true))
      | _ => None
      end
  | StoreSynced i =>
      match runs s !! i with
      | Some Synced =>
          Some {| wasCacheSynced := 1; runs := <[i := Done None true]> (runs s) |}
      | _ => None
      end
  end.

(** A schedule of atomic steps. *)
Fixpoint run (s : Probes) (sched : list Action) : option Probes :=
  match sched with
  | [] => Some s
  | a :: sched' =>
      match act s a with
      | Some s' => run s' sched'
      | None => None
      end
  end.

(** A check that has not loaded the variable yet: not arrived, or called. *)
Definition not_loaded (p : option Probe) : Prop := p = None ∨ p = Some Called.

(** A check that took, or can still take, the fast path only. *)
Definition fast (p : option Probe) : Prop :=
  p = None ∨ p = Some Called ∨ p = Some (Done None false).

Definition is_store (a : Action) : bool :=
  match a with StoreSynced _ => true | _ => false end.

(** The check run alone, from its call to its return: the new value of
    the variable, the error returned, and whether it waited. The answer of
    [WaitForCacheSync] is only asked for on the slow path. *)
Definition readyCheck (wasCacheSynced : Z) (WaitForCacheSync : bool)
  : Z * option error * bool :=
  let wasSynced := wasCacheSynced in
  if bool_decide (0 < wasSynced) then (wasCacheSynced, None, false)
  else
    let ok := WaitForCacheSync in
    if ok then (1, None, true)
    else (wasCacheSynced, Some (errorString "controller sync cache in progress"), true).

End Manager.

(** ** A small cluster to run the reconciler on *)

Module Example.

(** The world: the parents whose rule config maps were written (latest
    first) and the attempts the rate limiter still lets through. *)
Record World := mkWorld {
  written : list string;
  tokens : nat
}.

Definition labels (l : list (string * string)) : gmap string string := list_to_map l.

Definition rule (deletion : option Time) : VMRule :=
  {| rule_meta := {| Name := "r1"; Namespace := "ns1";
                     Labels := labels [("team", "y")];
                     DeletionTimestamp := deletion |} |}.

Definition alert (name : string) (selector : list (string * string)) : VMAlert :=
  {| alert_meta := {| Name := name; Namespace := "ns1"; Labels := ∅;
                      DeletionTimestamp := None |};
     alert_spec := {| ParsingError := ""; SelectAllByDefault := false;
                      RuleSelector := Some {| MatchLabels := labels selector |};
                      RuleNamespaceSelector := None |} |}.

(** [a1] and [a2] select [team=x]; the selector of [a3] has an empty key,
    which is malformed. *)
Definition a1 : VMAlert := alert "a1" [("team", "x")].
Definition a2 : VMAlert := alert "a2" [("team", "x")].
Definition a3 : VMAlert := alert "a3" [("", "x")].

(** A parent that is being deleted. *)
Definition a4 : VMAlert :=
  {| alert_meta := {| Name := "a4"; Namespace := "ns1"; Labels := ∅;
                      DeletionTimestamp := Some 1700000000 |};
     alert_spec := alert_spec a1 |}.

(** A matcher: a selector with an empty key is malformed; otherwise the
    target matches when it is in the parent's namespace and carries every
    label of the selector. *)
Definition matcher (instance : VMRule) (parent : VMAlert)
    (selector nsSelector : option LabelSelector) (w : World) : error + bool :=
  match selector with
  | None => inr true
  | Some sel =>
      if bool_decide (is_Some (MatchLabels sel !! ""))
      then inl (ExternalError false "malformed selector")
      else inr (bool_decide (Namespace (rule_meta instance) = Namespace (alert_meta parent))
                && bool_decide (map_Forall
                                  (fun k v => Labels (rule_meta instance) !! k = Some v)
                                  (MatchLabels sel)))
  end.

(** A cluster that holds [target] (or nothing), lists [parents], and whose
    materializer fails for the parents named in [failing]. *)
Definition cluster (target : option VMRule) (parents : list VMAlert)
    (failing : list string) : Collaborators World :=
  {| client_Get := fun key w =>
       match target with
       | Some r => inr r
       | None => inl (ExternalError true "vmrules not found")
       end;
     RegisterObjectStat := fun _ _ w => w;
     MustThrottleReconcile := fun w =>
       match tokens w with
       | O => (true, w)
       | S n => (false, {| written := written w; tokens := n |})
       end;
     MustGetWatchNamespaces := [];
     ListObjectsByNamespace := fun _ _ => ([parents], None);
     isSelectorsMatchesTargetCRD := matcher;
     CreateOrUpdateRuleConfigMaps := fun parent w =>
       let name := Name (alert_meta parent) in
       if bool_decide (name ∈ failing)
       then (Some (ExternalError false "cannot write config map"), w)
       else (None, {| written := name :: written w; tokens := tokens w |}) |}.

Definition request : Request :=
  {| req_NamespacedName := {| nn_Namespace := "ns1"; nn_Name := "r1" |} |}.

Definition idle : World := {| written := []; tokens := 1 |}.
Definition busy : World := {| written := []; tokens := 0 |}.

(** [r1] with a deletion marker, and [r1] alive. *)
Definition deleted : VMRule := rule (Some 1700000000).
Definition alive : VMRule := rule None.

(** The target is being deleted and the materializer fails for [a1], the
    first of two parents. *)
Definition first_fails : Collaborators World :=
  cluster (Some deleted) [a1; a2] ["a1"].

(** The target is being deleted and the materializer fails for [a2], after
    a malformed, a deleted and a sound parent. *)
Definition third_fails : Collaborators World :=
  cluster (Some deleted) [a3; a4; a1; a2] ["a2"].

(** The target is alive; the parents are a deleted, a malformed and a
    sound one. *)
Definition one_malformed : Collaborators World :=
  cluster (Some alive) [a4; a3; a1] [].

(** The target is gone. *)
Definition gone : Collaborators World := cluster None [a1] [].

(** Start-up in which every collaborator succeeds, with the flags [f] and
    the watch namespaces [nss]. *)
Definition env (f : Manager.Flags) (nss : list string) : Manager.Env :=
  {| Manager.flags := f;
     Manager.env_MustGetBaseConfig := None;
     Manager.env_PrintDefaults := None;
     Manager.env_MustGetWatchNamespaces := None;
     Manager.env_watchNss := nss;
     Manager.env_GetConfigOrDie := true;
     Manager.env_NewManager := None;
     Manager.env_AddReadyzCheck := None;
     Manager.env_AddHealthzCheck := None;
     Manager.env_client_New := None;
     Manager.env_Init := None;
     Manager.env_WebhookComplete := fun _ => None;
     Manager.env_SetupWithManager := fun _ => None;
     Manager.env_NewForConfig := None;
     Manager.env_ServerVersion := None;
     Manager.env_SetKubernetesVersionWithDefaults := None;
     Manager.env_NewWithWatch := None;
     Manager.env_NewConverterController := None;
     Manager.env_mgr_Add := None;
     Manager.env_mgr_Start := None |}.

(** The same, but [vmv1beta1.Init] fails. *)
Definition env_init_fails : Manager.Env :=
  {| Manager.flags := Manager.defaultFlags;
     Manager.env_MustGetBaseConfig := None;
     Manager.env_PrintDefaults := None;
     Manager.env_MustGetWatchNamespaces := None;
     Manager.env_watchNss := [];
     Manager.env_GetConfigOrDie := true;
     Manager.env_NewManager := None;
     Manager.env_AddReadyzCheck := None;
     Manager.env_AddHealthzCheck := None;
     Manager.env_client_New := None;
     Manager.env_Init := Some (ExternalError false "cannot patch CRD");
     Manager.env_WebhookComplete := fun _ => None;
     Manager.env_SetupWithManager := fun _ => None;
     Manager.env_NewForConfig := None;
     Manager.env_ServerVersion := None;
     Manager.env_SetKubernetesVersionWithDefaults := None;
     Manager.env_NewWithWatch := None;
     Manager.env_NewConverterController := None;
     Manager.env_mgr_Add := None;
     Manager.env_mgr_Start := None |}.

(** [-mtls.enable] without [-tls.enable]. *)
Definition flags_mtls_only : Manager.Flags :=
  {| Manager.leaderElect := false;
     Manager.enableWebhooks := false;
     Manager.disableCRDOwnership := false;
     Manager.tlsEnable := false;
     Manager.tlsCertsDir := "/tmp/k8s-metrics-server/serving-certs";
     Manager.mtlsEnable := true;
     Manager.mtlsCAFile := "clietCA.crt";
     Manager.printDefaults := false;
     Manager.printFormat := "table";
     Manager.disableCacheForObjects := "";
     Manager.version := false |}.

(** [-controller.disableCacheFor=pod,service]. *)
Definition flags_bad_cache : Manager.Flags :=
  {| Manager.leaderElect := false;
     Manager.enableWebhooks := false;
     Manager.disableCRDOwnership := false;
     Manager.tlsEnable := false;
     Manager.tlsCertsDir := "/tmp/k8s-metrics-server/serving-certs";
     Manager.mtlsEnable := false;
     Manager.mtlsCAFile := "clietCA.crt";
     Manager.printDefaults := false;
     Manager.printFormat := "table";
     Manager.disableCacheForObjects := "pod,service";
     Manager.version := false |}.

(** Two readiness requests that overlap: both load 0 and wait; the first
    stores and returns before the wait of the second is over. *)
Definition first_check_done : list Manager.Action :=
  [Manager.Request; Manager.Request; Manager.LoadSynced 0; Manager.LoadSynced 1;
   Manager.WaitReturns 0 true; Manager.StoreSynced 0].

Definition second_check_done : list Manager.Action :=
  [Manager.WaitReturns 1 true; Manager.StoreSynced 1].

(** Requests one after the other: the cache is not synced for the first
    check and synced for the second; a third check comes after. *)
Definition checks_in_turn : list Manager.Action :=
  [Manager.Request; Manager.LoadSynced 0; Manager.WaitReturns 0 false;
   Manager.Request; Manager.LoadSynced 1; Manager.WaitReturns 1 true;
   Manager.StoreSynced 1].

Definition two_checks_done : Manager.Probes :=
  {| Manager.wasCacheSynced := 1;
     Manager.runs :=
       [Manager.Done (Some (errorString "controller sync cache in progress")) true;
        Manager.Done None true] |}.

Definition third_check : list Manager.Action :=
  [Manager.Request; Manager.LoadSynced 2].

Definition three_checks_done : Manager.Probes :=
  {| Manager.wasCacheSynced := 1;
     Manager.runs :=
       [Manager.Done (Some (errorString "controller sync cache in progress")) true;
        Manager.Done None true; Manager.Done None false] |}.

(** The two overlapping checks, when the first has returned and when both
    have. *)
Definition first_returned : Manager.Probes :=
  {| Manager.wasCacheSynced := 1;
     Manager.runs := [Manager.Done None true; Manager.Waiting] |}.

Definition both_returned : Manager.Probes :=
  {| Manager.wasCacheSynced := 1;
     Manager.runs := [Manager.Done None true; Manager.Done None true] |}.

End Example.

(** ** More of the code: what a pass writes *)

Section ReconcilerWrites.

Context {W : Type} (K : Collaborators W).

(** The world after the materializer calls a trace records, made in the
    order of the trace from the world [w]. *)
Definition replay (tr : list Event) (w : W) : W :=
  foldl (fun w e =>
           match e with
           | EvMaterialize parent => (CreateOrUpdateRuleConfigMaps K parent w).2
           | _ => w
           end) w tr.

End ReconcilerWrites.

(** ** More of package [manager]: the latency metric *)

Module Metrics.

(** [apiLatencyPrefixAllowList] *)
Definition apiLatencyPrefixAllowList : list string :=
  ["/apis/rbac.authorization.k8s.io/v1/";
   "/apis/operator.victoriametrics.com/";
   "/apis/apps/v1/";
   "/api/v1/"].

(** [strings.HasPrefix(s, prefix)] *)
Fixpoint HasPrefix (s prefix : string) {struct prefix} : bool :=
  match prefix with
  | EmptyString => true
  | String p prefix' =>
      match s with
      | EmptyString => false
      | String c s' => Ascii.eqb c p && HasPrefix s' prefix'
      end
  end.

(** The loop of [Observe] over the allow list, with its [break]. *)
Fixpoint shouldObserve (allowList : list string) (apiPath : string) : bool :=
  match allowList with
  | [] => false
  | allowedPrefix :: allowList' =>
      if HasPrefix apiPath allowedPrefix then true
      else shouldObserve allowList' apiPath
  end.

(** [latencyMetricWrapper.Observe]: the observation handed to the
    histogram, if any: the two label values and the latency (kept as the
    [time.Duration]; the source converts it to seconds). *)
Definition Observe (verb : string) (u_Path : string) (latency : Z)
  : option (string * string * Z) :=
  let apiPath := u_Path in
  let shouldObserveReqLatency := shouldObserve apiLatencyPrefixAllowList apiPath in
  if negb shouldObserveReqLatency then None
  else Some (verb, apiPath, latency).

End Metrics.

(** ** The generated client of [VMStaticScrape] *)

Module Client.

(** [int64] arithmetic wraps around. *)
Definition wrap64 (z : Z) : Z := (z + 2 ^ 63) mod 2 ^ 64 - 2 ^ 63.

(** [time.Second], a [time.Duration] in nanoseconds. *)
Definition Second : Z := 1000000000.

Record VMStaticScrape := mkVMStaticScrape {
  scrape_meta : ObjectMeta
}.

Record GetOptions := mkGetOptions { get_ResourceVersion : string }.
Record CreateOptions := mkCreateOptions { create_FieldManager : string }.
Record UpdateOptions := mkUpdateOptions { update_FieldManager : string }.
Record PatchOptions := mkPatchOptions { patch_FieldManager : string }.
Record DeleteOptions := mkDeleteOptions { GracePeriodSeconds : option Z }.

Record ListOptions := mkListOptions {
  LabelSelector : string;
  FieldSelector : string;
  Watch : bool;
  ResourceVersion : string;
  TimeoutSeconds : option Z
}.

Inductive Verb : Type :=
| VerbGet | VerbPost | VerbPut | VerbDelete | VerbPatch (pt : string).

Inductive Params : Type :=
| ParamsGet (opts : GetOptions)
| ParamsList (opts : ListOptions)
| ParamsCreate (opts : CreateOptions)
| ParamsUpdate (opts : UpdateOptions)
| ParamsPatch (opts : PatchOptions).

Inductive Body : Type :=
| BodyObject (obj : VMStaticScrape)
| BodyDeleteOptions (opts : DeleteOptions)
| BodyData (data : string).

(** A [rest.Request] as the builder calls leave it. *)
Record Request := mkRequest {
  verb : Verb;
  namespace : string;
  resource : string;
  name : option string;
  subresources : list string;
  params : option Params;
  timeout : Z;
  body : option Body
}.

(** [c.client.Get()], [Post()], ... : a fresh request. *)
Definition newRequest (v : Verb) : Request :=
  {| verb := v; namespace := EmptyString; resource := EmptyString; name := None;
     subresources := []; params := None; timeout := 0; body := None |}.

Definition Namespace (ns : string) (r : Request) : Request :=
  {| verb := verb r; namespace := ns; resource := resource r; name := name r;
     subresources := subresources r; params := params r; timeout := timeout r;
     body := body r |}.

Definition Resource (res : string) (r : Request) : Request :=
  {| verb := verb r; namespace := namespace r; resource := res; name := name r;
     subresources := subresources r; params := params r; timeout := timeout r;
     body := body r |}.

Definition Name (n : string) (r : Request) : Request :=
  {| verb := verb r; namespace := namespace r; resource := resource r; name := Some n;
     subresources := subresources r; params := params r; timeout := timeout r;
     body := body r |}.

Definition SubResource (subs : list string) (r : Request) : Request :=
  {| verb := verb r; namespace := namespace r; resource := resource r; name := name r;
     subresources := subs; params := params r; timeout := timeout r;
     body := body r |}.

Definition VersionedParams (ps : Params) (r : Request) : Request :=
  {| verb := verb r; namespace := namespace r; resource := resource r; name := name r;
     subresources := subresources r; params := Some ps; timeout := timeout r;
     body := body r |}.

Definition Timeout (d : Z) (r : Request) : Request :=
  {| verb := verb r; namespace := namespace r; resource := resource r; name := name r;
     subresources := subresources r; params := params r; timeout := d;
     body := body r |}.

Definition WithBody (b : Body) (r : Request) : Request :=
  {| verb := verb r; namespace := namespace r; resource := resource r; name := name r;
     subresources := subresources r; params := params r; timeout := timeout r;
     body := Some b |}.

(** The [timeout] of [List], [Watch] and [DeleteCollection]: zero unless
    [opts.TimeoutSeconds] is set, and then the [int64] it points to,
    converted to a [time.Duration] and multiplied by [time.Second]. *)
Definition timeoutOf (TimeoutSeconds : option Z) : Z :=
  match TimeoutSeconds with
  | Some seconds => wrap64 (seconds * Second)
  | None => 0
  end.

(** [opts.Watch = true] *)
Definition watching (opts : ListOptions) : ListOptions :=
  {| LabelSelector := LabelSelector opts; FieldSelector := FieldSelector opts;
     Watch := true; ResourceVersion := ResourceVersion opts;
     TimeoutSeconds := TimeoutSeconds opts |}.

(** The calls of [VMStaticScrapeInterface]. *)
Inductive Call : Type :=
| CallGet (name : string) (options : GetOptions)
| CallList (opts : ListOptions)
| CallWatch (opts : ListOptions)
| CallCreate (vMStaticScrape : VMStaticScrape) (opts : CreateOptions)
| CallUpdate (vMStaticScrape : VMStaticScrape) (opts : UpdateOptions)
| CallUpdateStatus (vMStaticScrape : VMStaticScrape) (opts : UpdateOptions)
| CallDelete (name : string) (opts : DeleteOptions)
| CallDeleteCollection (opts : DeleteOptions) (listOpts : ListOptions)
| CallPatch (name : string) (pt : string) (data : string) (opts : PatchOptions)
    (subresources : list string).

(** The request each method of [vMStaticScrapes] builds before it hands it
    to [Do(ctx)] (or [Watch(ctx)]); [ns] is the field [c.ns]. *)
Definition requestOf (ns : string) (call : Call) : Request :=
  match call with
  | CallGet name options =>
      VersionedParams (ParamsGet options)
        (Name name (Resource "vmstaticscrapes" (Namespace ns (newRequest VerbGet))))
  | CallList opts =>
      let timeout := timeoutOf (TimeoutSeconds opts) in
      Timeout timeout
        (VersionedParams (ParamsList opts)
           (Resource "vmstaticscrapes" (Namespace ns (newRequest VerbGet))))
  | CallWatch opts =>
      let timeout := timeoutOf (TimeoutSeconds opts) in
      let opts := watching opts in
      Timeout timeout
        (VersionedParams (ParamsList opts)
           (Resource "vmstaticscrapes" (Namespace ns (newRequest VerbGet))))
  | CallCreate vMStaticScrape opts =>
      WithBody (BodyObject vMStaticScrape)
        (VersionedParams (ParamsCreate opts)
           (Resource "vmstaticscrapes" (Namespace ns (newRequest VerbPost))))
  | CallUpdate vMStaticScrape opts =>
      WithBody (BodyObject vMStaticScrape)
        (VersionedParams (ParamsUpdate opts)
           (Name (Meta.Name (scrape_meta vMStaticScrape))
              (Resource "vmstaticscrapes" (Namespace ns (newRequest VerbPut)))))
  | CallUpdateStatus vMStaticScrape opts =>
      WithBody (BodyObject vMStaticScrape)
        (VersionedParams (ParamsUpdate opts)
           (SubResource ["status"]
              (Name (Meta.Name (scrape_meta vMStaticScrape))
                 (Resource "vmstaticscrapes" (Namespace ns (newRequest VerbPut))))))
  | CallDelete name opts =>
      WithBody (BodyDeleteOptions opts)
        (Name name (Resource "vmstaticscrapes" (Namespace ns (newRequest VerbDelete))))
  | CallDeleteCollection opts listOpts =>
      let timeout := timeoutOf (TimeoutSeconds listOpts) in
      WithBody (BodyDeleteOptions opts)
        (Timeout timeout
           (VersionedParams (ParamsList listOpts)
              (Resource "vmstaticscrapes" (Namespace ns (newRequest VerbDelete)))))
  | CallPatch name pt data opts subresources =>
      WithBody (BodyData data)
        (VersionedParams (ParamsPatch opts)
           (SubResource subresources
              (Name name
                 (Resource "vmstaticscrapes" (Namespace ns (newRequest (VerbPatch pt)))))))
  end.

(** The calls that address one object, with the name they address. *)
Definition addressed (call : Call) : option string :=
  match call with
  | CallGet name _ | CallDelete name _ | CallPatch name _ _ _ _ => Some name
  | CallUpdate obj _ | CallUpdateStatus obj _ => Some (Meta.Name (scrape_meta obj))
  | CallList _ | CallWatch _ | CallCreate _ _ | CallDeleteCollection _ _ => None
  end.

End Client.

(** ** More of start-up *)

(** Every step before [mgr.Start] succeeds. *)
Definition healthy (e : Manager.Env) : Prop :=
  Manager.starts e
  ∧ (∃ co, Manager.getClientCacheOptions
             (Manager.disableCacheForObjects (Manager.flags e)) = inr co)
  ∧ (Manager.mtlsEnable (Manager.flags e) = true →
     Manager.tlsEnable (Manager.flags e) = true)
  ∧ Manager.env_NewManager e = None
  ∧ Manager.env_AddReadyzCheck e = None
  ∧ Manager.env_AddHealthzCheck e = None
  ∧ (Manager.ownsCRDs e = true →
     Manager.env_client_New e = None ∧ Manager.env_Init e = None)
  ∧ (Manager.enableWebhooks (Manager.flags e) = true →
     ∀ obj, obj ∈ Manager.webhookObjects → Manager.env_WebhookComplete e obj = None)
  ∧ (∀ k, k ∈ Manager.controllers → Manager.env_SetupWithManager e k = None)
  ∧ Manager.env_NewForConfig e = None
  ∧ Manager.env_ServerVersion e = None
  ∧ Manager.env_NewWithWatch e = None
  ∧ Manager.env_NewConverterController e = None
  ∧ Manager.env_mgr_Add e = None.

(** The steps of a start-up in which everything succeeds, given the
    options [ctrl.NewManager] is called with. *)
Definition healthy_steps (e : Manager.Env) (opts : Manager.Options)
  : list Manager.Step :=
  Manager.started
  ++ [Manager.NewManager opts; Manager.AddReadyzCheck; Manager.AddHealthzCheck]
  ++ (if Manager.ownsCRDs e then [Manager.NewInitClient; Manager.InitCRD] else [])
  ++ (if Manager.enableWebhooks (Manager.flags e)
      then Manager.WebhookComplete <$> Manager.webhookObjects else [])
  ++ [Manager.SetLabelAndAnnotationPrefixes]
  ++ (Manager.SetupWithManager <$> Manager.controllers)
  ++ [Manager.NewForConfig; Manager.ServerVersion;
      Manager.SetKubernetesVersionWithDefaults; Manager.NewWithWatch;
      Manager.NewConverterController; Manager.MgrAdd; Manager.MgrStart].

(** The invariant of the readiness check: the variable is set exactly when
    some run went through the slow path to its store; a run on the fast
    path saw it set; a run that failed had waited. *)
Definition consistent (s : Manager.Probes) : Prop :=
  (Manager.wasCacheSynced s = 0 ∨ Manager.wasCacheSynced s = 1)
  ∧ (Manager.wasCacheSynced s = 1 ↔
     ∃ i, Manager.runs s !! i = Some (Manager.Done None true))
  ∧ (∀ i, Manager.runs s !! i = Some (Manager.Done None false) →
       Manager.wasCacheSynced s = 1)
  ∧ ∀ i err waited, Manager.runs s !! i = Some (Manager.Done (Some err) waited) →
      waited = true ∧ err = errorString "controller sync cache in progress".

(** ** More examples *)

Module MoreExamples.

(** A file system with one readable CA file. *)
Definition files : Manager.Files :=
  {| Manager.path_Join := fun dir file => dir +:+ "/" +:+ file;
     Manager.os_ReadFile := fun file =>
       if bool_decide (file = "/certs/ca.crt")
       then inr "-----BEGIN CERTIFICATE-----"
       else inl (ExternalError true "no such file");
     Manager.AppendCertsFromPEM := fun pem => bool_decide (pem ≠ EmptyString) |}.

Definition flags_mtls (caFile : string) : Manager.Flags :=
  {| Manager.leaderElect := false;
     Manager.enableWebhooks := true;
     Manager.disableCRDOwnership := false;
     Manager.tlsEnable := true;
     Manager.tlsCertsDir := "/certs";
     Manager.mtlsEnable := true;
     Manager.mtlsCAFile := caFile;
     Manager.printDefaults := false;
     Manager.printFormat := "table";
     Manager.disableCacheForObjects := "pod,secret,pod";
     Manager.version := false |}.

Definition no_client_cert : Manager.tlsConfig :=
  {| Manager.ClientAuth := Manager.NoClientCert; Manager.ClientCAs := None |}.

(** Start-up with webhooks in which the webhook of [VMCluster] cannot be
    registered. *)
Definition env_webhook_fails : Manager.Env :=
  {| Manager.flags := flags_mtls "ca.crt";
     Manager.env_MustGetBaseConfig := None;
     Manager.env_PrintDefaults := None;
     Manager.env_MustGetWatchNamespaces := None;
     Manager.env_watchNss := ["ns1"; "ns2"];
     Manager.env_GetConfigOrDie := true;
     Manager.env_NewManager := None;
     Manager.env_AddReadyzCheck := None;
     Manager.env_AddHealthzCheck := None;
     Manager.env_client_New := None;
     Manager.env_Init := None;
     Manager.env_WebhookComplete := fun obj =>
       match obj with
       | Manager.VMClusterK => Some (ExternalError false "no certificate")
       | _ => None
       end;
     Manager.env_SetupWithManager := fun _ => None;
     Manager.env_NewForConfig := None;
     Manager.env_ServerVersion := None;
     Manager.env_SetKubernetesVersionWithDefaults := None;
     Manager.env_NewWithWatch := None;
     Manager.env_NewConverterController := None;
     Manager.env_mgr_Add := None;
     Manager.env_mgr_Start := None |}.

(** The target is alive and [a1] does not select it; [a5] selects every
    rule. *)
Definition a5 : VMAlert :=
  {| alert_meta := {| Name := "a5"; Namespace := "ns2"; Labels := ∅;
                      DeletionTimestamp := None |};
     alert_spec := {| ParsingError := ""; SelectAllByDefault := true;
                      RuleSelector := None; RuleNamespaceSelector := None |} |}.

Definition mixed : Collaborators Example.World :=
  Example.cluster (Some Example.alive) [Example.a1; a5; Example.a4] [].

(** The same cluster, whose listing fails after the first namespace. *)
Definition listing_fails : Collaborators Example.World :=
  {| client_Get := client_Get mixed;
     RegisterObjectStat := RegisterObjectStat mixed;
     MustThrottleReconcile := MustThrottleReconcile mixed;
     MustGetWatchNamespaces := ["ns1"; "ns2"];
     ListObjectsByNamespace := fun _ _ =>
       ([[Example.a1]], Some (ExternalError false "ns2: forbidden"));
     isSelectorsMatchesTargetCRD := isSelectorsMatchesTargetCRD mixed;
     CreateOrUpdateRuleConfigMaps := CreateOrUpdateRuleConfigMaps mixed |}.

End MoreExamples.

(** * Properties of [VMRuleReconciler.Reconcile] *)

Section ReconcilerFacts.

Context {W : Type} (K : Collaborators W).

Implicit Types (instance : VMRule) (c : VMAlert) (w : W) (e : Event).

(** The loop over a concatenation: the second part runs from the world the
    first part left, unless the first part returned. *)
Lemma loop_app instance items1 items2 w :
  loop K instance (items1 ++ items2) w =
    match loop K instance items1 w with
    | (Next, w1, t1) =>
        let '(ctl, w2, t2) := loop K instance items2 w1 in (ctl, w2, t1 ++ t2)
    | (Return result err, w1, t1) => (Return result err, w1, t1)
    end.
Proof.
  revert w. induction items1 as [|c items1 IH]; intros w; simpl.
  - by destruct (loop K instance items2 w) as [[ctl w2] t2].
  - destruct (loopBody K instance c w) as [[[|result err] w'] tr]; [|done].
    rewrite IH.
    destruct (loop K instance items1 w') as [[[|result err] w1] t1]; [|done].
    destruct (loop K instance items2 w1) as [[ctl w2] t2].
    by rewrite (assoc_L (++)).
Qed.

Lemma materialize_trace c w :
  (materialize K c w).2 = [EvMaterialize c].
Proof.
  unfold materialize.
  by destruct (CreateOrUpdateRuleConfigMaps K c w) as [[err|] w'].
Qed.

(** Every event of an iteration is about its candidate, and a skipped
    candidate has none. *)
Lemma loopBody_events instance c w e :
  e ∈ (loopBody K instance c w).2 →
  event_parent e = Some c ∧ skipped c = false.
Proof.
  unfold loopBody. destruct (skipped c) eqn:Hskip; simpl.
  { by intros ?%elem_of_nil. }
  destruct (checks_selector instance c).
  - destruct (isSelectorsMatchesTargetCRD K instance c _ _ w) as [err|[|]]; simpl.
    + rewrite !elem_of_cons, elem_of_nil. naive_solver.
    + pose proof (materialize_trace c w) as Htr.
      destruct (materialize K c w) as [[ctl w'] tr]; simpl in *; subst tr.
      rewrite !elem_of_cons, elem_of_nil. naive_solver.
    + rewrite !elem_of_cons, elem_of_nil. naive_solver.
  - rewrite materialize_trace, !elem_of_cons, elem_of_nil. naive_solver.
Qed.

Lemma loop_events instance items w e :
  e ∈ (loop K instance items w).2 →
  ∃ c, c ∈ items ∧ event_parent e = Some c ∧ skipped c = false.
Proof.
  revert w. induction items as [|c items IH]; intros w; simpl.
  { by intros ?%elem_of_nil. }
  pose proof (loopBody_events instance c w e) as Hbody.
  destruct (loopBody K instance c w) as [[[|result err] w'] tr]; simpl in *.
  - specialize (IH w').
    destruct (loop K instance items w') as [[ctl w''] tr']; simpl in *.
    rewrite elem_of_app. intros [Hin|Hin].
    + exists c. split; [left|]; naive_solver.
    + destruct (IH Hin) as (c' & ? & ?). exists c'. split; [by right|done].
  - intros Hin. exists c. split; [left|]; naive_solver.
Qed.

(** When the guard of the selector check is false, the iteration does not
    evaluate the selector. *)
Lemma loopBody_no_match instance c w e :
  checks_selector instance c = false →
  e ∈ (loopBody K instance c w).2 → is_match_event e = false.
Proof.
  intros Hguard. unfold loopBody. rewrite Hguard.
  destruct (skipped c); simpl.
  - by intros ?%elem_of_nil.
  - rewrite materialize_trace, !elem_of_cons, elem_of_nil. naive_solver.
Qed.

Lemma loop_no_match instance items w e :
  IsZero (DeletionTimestamp (rule_meta instance)) = false →
  e ∈ (loop K instance items w).2 → is_match_event e = false.
Proof.
  intros Hdel. revert w. induction items as [|c items IH]; intros w; simpl.
  { by intros ?%elem_of_nil. }
  assert (checks_selector instance c = false) as Hguard
    by (unfold checks_selector; by rewrite Hdel).
  pose proof (loopBody_no_match instance c w e Hguard) as Hbody.
  destruct (loopBody K instance c w) as [[[|result err] w'] tr]; simpl in *; [|done].
  specialize (IH w').
  destruct (loop K instance items w') as [[ctl w''] tr']; simpl in *.
  rewrite elem_of_app. naive_solver.
Qed.

(** A candidate that is not skipped and whose selector is not checked is
    handed to the materializer. *)
Lemma loopBody_materializes instance c w :
  skipped c = false → checks_selector instance c = false →
  loopBody K instance c w = materialize K c w.
Proof. intros Hskip Hguard. unfold loopBody. by rewrite Hskip, Hguard. Qed.

(** The deferred handler changes neither the world nor the trace. *)
Lemma Reconcile_body req w :
  Reconcile K req w =
    (handleReconcileErr (reconcileBody K req w).1.1.1 (reconcileBody K req w).1.1.2,
     (reconcileBody K req w).1.2, (reconcileBody K req w).2).
Proof.
  unfold Reconcile. by destruct (reconcileBody K req w) as [[[result err] w'] tr].
Qed.

(** The body of a reconcile that was admitted and listed its candidates. *)
Lemma reconcileBody_pass req w instance lists :
  client_Get K (req_NamespacedName req) w = inr instance →
  (gate K instance w).1 = false →
  ListObjectsByNamespace K (MustGetWatchNamespaces K) (gate K instance w).2
    = (lists, None) →
  reconcileBody K req w =
    let '(ctl, w', tr) := loop K instance (collect lists) (gate K instance w).2 in
    (returned ctl, w', fetched req ++ EvList (MustGetWatchNamespaces K) :: tr).
Proof.
  unfold reconcileBody, gate. intros -> Hgate Hlist.
  destruct (MustThrottleReconcile K _) as [throttle w2]; simpl in *; subst throttle.
  by rewrite Hlist.
Qed.

(** The body of a reconcile the gate throttled. *)
Lemma reconcileBody_throttled req w instance :
  client_Get K (req_NamespacedName req) w = inr instance →
  (gate K instance w).1 = true →
  reconcileBody K req w = ((Result_zero, None), (gate K instance w).2, fetched req).
Proof.
  unfold reconcileBody, gate. intros -> Hgate.
  by destruct (MustThrottleReconcile K _) as [throttle w2]; simpl in *; subst throttle.
Qed.

(** The events of the pass are those of the loop, after four events that
    are about no candidate. *)
Lemma reconcileBody_events req w e :
  e ∈ (reconcileBody K req w).2 →
  event_parent e = None ∨
  ∃ instance items w', client_Get K (req_NamespacedName req) w = inr instance ∧
    e ∈ (loop K instance items w').2.
Proof.
  unfold reconcileBody.
  destruct (client_Get K (req_NamespacedName req) w) as [err|instance]; simpl.
  { rewrite list_elem_of_singleton. intros ->. by left. }
  destruct (MustThrottleReconcile K _) as [[|] w2]; simpl.
  { rewrite !elem_of_cons, elem_of_nil. naive_solver. }
  destruct (ListObjectsByNamespace K _ w2) as [lists [err|]]; simpl.
  { rewrite !elem_of_cons, elem_of_nil. naive_solver. }
  destruct (loop K instance (collect lists) w2) as [[ctl w3] tr] eqn:Hloop; simpl.
  rewrite !elem_of_cons. intros [->|[->|[->|[->|Hin]]]]; try by left.
  right. exists instance, (collect lists), w2. by rewrite Hloop.
Qed.

(** ** The specified properties *)

(** C2. A reconcile the admission gate throttles returns at once with the
    zero result (no requeue asked for) and a nil error: its events are the
    fetch, the statistic and the question to the gate, so it lists no
    candidates, evaluates no selector and calls no materializer, and the
    world is the one the gate left. *)
Theorem C2_throttled_reconcile_returns_at_once req w instance :
  client_Get K (req_NamespacedName req) w = inr instance →
  (gate K instance w).1 = true →
  Reconcile K req w = ((Result_zero, None), (gate K instance w).2, fetched req)
  ∧ (reconcileBody K req w).1.1 = (Result_zero, None)
  ∧ Requeue (Reconcile K req w).1.1.1 = false
  ∧ RequeueAfter (Reconcile K req w).1.1.1 = 0
  ∧ ∀ e, e ∈ (Reconcile K req w).2 → is_pass_event e = false.
Proof.
  intros Hget Hgate.
  rewrite Reconcile_body, (reconcileBody_throttled req w instance Hget Hgate); simpl.
  repeat split; try done.
  intros e. unfold fetched. rewrite !elem_of_cons, elem_of_nil. naive_solver.
Qed.

(** C7. A reconcile whose fetch reports not-found ends there: it returns
    the zero result (no requeue) and no error, its only event is the fetch,
    and the world is untouched. The body hands the [getError] to the
    deferred handler, which makes it a success. *)
Theorem C7_not_found_is_terminal_success req w err :
  client_Get K (req_NamespacedName req) w = inl err →
  IsNotFound err = true →
  Reconcile K req w = ((Result_zero, None), w, [EvGet (req_NamespacedName req)])
  ∧ (reconcileBody K req w).1.1 = (Result_zero, Some (getError err "vmrule" req))
  ∧ Requeue (Reconcile K req w).1.1.1 = false
  ∧ RequeueAfter (Reconcile K req w).1.1.1 = 0
  ∧ ∀ e, e ∈ (Reconcile K req w).2 → is_pass_event e = false.
Proof.
  intros Hget Hnf.
  assert (reconcileBody K req w
          = ((Result_zero, Some (getError err "vmrule" req)), w,
             [EvGet (req_NamespacedName req)])) as Hbody.
  { unfold reconcileBody. by rewrite Hget. }
  rewrite Reconcile_body, Hbody; simpl. rewrite Hnf.
  repeat split; try done.
  intros e. rewrite list_elem_of_singleton. by intros ->.
Qed.

(** C5. A candidate that carries a deletion marker or a non-empty parsing
    error is skipped entirely: its iteration does nothing, and no event of
    the reconcile (selector evaluation, error log or materializer call) is
    about it. *)
Theorem C5_deleted_or_broken_candidate_is_skipped req w c :
  DeletionTimestamp (alert_meta c) ≠ None ∨ ParsingError (alert_spec c) ≠ "" →
  (∀ instance w', loopBody K instance c w' = (Next, w', []))
  ∧ ∀ e, e ∈ (Reconcile K req w).2 → event_parent e ≠ Some c.
Proof.
  intros Hc.
  assert (skipped c = true) as Hskip.
  { unfold skipped. apply orb_true_iff.
    destruct Hc; [left|right]; by apply bool_decide_eq_true. }
  split.
  { intros instance w'. unfold loopBody. by rewrite Hskip. }
  intros e. rewrite Reconcile_body; simpl.
  intros [Hnone|(instance & items & w' & _ & Hin)]%reconcileBody_events.
  - by rewrite Hnone.
  - destruct (loop_events instance items w' e Hin) as (c' & _ & Hpar & Hns).
    rewrite Hpar. intros [= ->]. congruence.
Qed.

(** A target with a non-zero deletion marker is not [IsZero]. *)
Lemma deleted_not_zero instance (t : Time) :
  DeletionTimestamp (rule_meta instance) = Some t → t ≠ 0 →
  IsZero (DeletionTimestamp (rule_meta instance)) = false.
Proof. intros -> Ht. simpl. unfold Time_IsZero. by apply Z.eqb_neq. Qed.

(** C1, as the code has it. In a reconcile of a target with a non-zero
    deletion marker the selector matcher is never invoked, and for every
    enumerated candidate that is neither being deleted nor carries a parsing
    error the materializer is invoked, whatever the candidate's selector and
    [SelectAllByDefault] say — provided the pass reaches that candidate,
    that is, the loop over the candidates before it ran to its end (no
    materializer call before it failed). *)
Theorem C1_deleted_target_skips_matcher_and_materializes req w instance (t : Time) :
  client_Get K (req_NamespacedName req) w = inr instance →
  DeletionTimestamp (rule_meta instance) = Some t → t ≠ 0 →
  (∀ e, e ∈ (Reconcile K req w).2 → is_match_event e = false)
  ∧ ∀ lists before c after,
      (gate K instance w).1 = false →
      ListObjectsByNamespace K (MustGetWatchNamespaces K) (gate K instance w).2
        = (lists, None) →
      collect lists = before ++ c :: after →
      DeletionTimestamp (alert_meta c) = None →
      ParsingError (alert_spec c) = "" →
      (loop K instance before (gate K instance w).2).1.1 = Next →
      EvMaterialize c ∈ (Reconcile K req w).2.
Proof.
  intros Hget Ht Hnz.
  pose proof (deleted_not_zero instance t Ht Hnz) as Hdel.
  split.
  - intros e. rewrite Reconcile_body; simpl.
    intros [Hnone|(instance' & items & w' & Hget' & Hin)]%reconcileBody_events.
    + by destruct e.
    + rewrite Hget in Hget'. injection Hget' as <-.
      by apply (loop_no_match instance items w').
  - intros lists before c after Hgate Hlist Hitems Hnodel Hnoerr Hbefore.
    rewrite Reconcile_body, (reconcileBody_pass req w instance lists Hget Hgate Hlist).
    rewrite Hitems, loop_app.
    destruct (loop K instance before (gate K instance w).2)
      as [[ctl w1] t1]; simpl in Hbefore; subst ctl.
    assert (skipped c = false) as Hskip.
    { unfold skipped. rewrite Hnodel, Hnoerr.
      by rewrite !bool_decide_eq_false_2 by (intros Hne; by apply Hne). }
    assert (checks_selector instance c = false) as Hguard
      by (unfold checks_selector; by rewrite Hdel).
    simpl loop. rewrite (loopBody_materializes instance c w1 Hskip Hguard).
    pose proof (materialize_trace c w1) as Htr.
    destruct (materialize K c w1) as [[[|result err] w2] tr]; simpl in Htr; subst tr.
    + destruct (loop K instance after w2) as [[ctl w3] t3]; simpl.
      repeat (rewrite elem_of_cons || rewrite elem_of_app). naive_solver.
    + simpl. repeat (rewrite elem_of_cons || rewrite elem_of_app). naive_solver.
Qed.

(** The only [return] inside the loop is the one after a failed
    materializer call: it carries the zero result and that failure,
    wrapped, and the world is the one the failed call left. *)
Lemma loop_return instance items w result err w' tr :
  loop K instance items w = (Return result err, w', tr) →
  result = Result_zero ∧
  ∃ c w1 cause, c ∈ items ∧
    CreateOrUpdateRuleConfigMaps K c w1 = (Some cause, w') ∧
    err = Some (Errorf_w "cannot update rules configmaps" cause).
Proof.
  revert w tr. induction items as [|c items IH]; intros w tr; simpl; [done|].
  destruct (loopBody K instance c w) as [[[|result0 err0] w0] tr0] eqn:Hbody.
  - destruct (loop K instance items w0) as [[ctl w''] tr'] eqn:Hloop.
    intros [= -> -> <-].
    destruct (IH _ _ Hloop) as (? & c' & w1 & cause & ? & ? & ?).
    split; [done|]. exists c', w1, cause. split; [by right|done].
  - intros [= -> -> -> <-].
    assert (materialize K c w = (Return result err, w', tr0)
            ∨ ∃ tr1, materialize K c w = (Return result err, w', tr1)) as Hmat.
    { revert Hbody. unfold loopBody.
      destruct (skipped c); [done|].
      destruct (checks_selector instance c); [|by left].
      destruct (isSelectorsMatchesTargetCRD K instance c _ _ w) as [?|[|]]; try done.
      destruct (materialize K c w) as [[ctl w2] tr2].
      intros [= -> -> <-]. right. by exists tr2. }
    assert (∃ tr1, materialize K c w = (Return result err, w', tr1)) as [tr1 Hm]
      by (destruct Hmat as [?|[? ?]]; eauto).
    revert Hm. unfold materialize.
    destruct (CreateOrUpdateRuleConfigMaps K c w) as [[cause|] w2] eqn:Hcall; [|done].
    intros [= <- <- <- <-]. split; [done|].
    exists c, w, cause. split; [by left|done].
Qed.



(** C4. When the materializer fails for a candidate the pass has reached,
    [Reconcile] returns that failure, wrapped, with the zero result: the
    queue retries it. The pass ends there: the trace stops at the failed
    call, so the candidates after it are not touched and nothing is written
    after it, and the world returned is the one the failed call left on top
    of what the earlier candidates' calls had written. *)
Theorem C4_materializer_failure_aborts_pass
    req w instance lists before c after w1 t1 cause w2 :
  client_Get K (req_NamespacedName req) w = inr instance →
  (gate K instance w).1 = false →
  ListObjectsByNamespace K (MustGetWatchNamespaces K) (gate K instance w).2
    = (lists, None) →
  collect lists = before ++ c :: after →
  loop K instance before (gate K instance w).2 = (Next, w1, t1) →
  skipped c = false →
  (checks_selector instance c = false
   ∨ isSelectorsMatchesTargetCRD K instance c (RuleSelector (alert_spec c))
       (RuleNamespaceSelector (alert_spec c)) w1 = inr true) →
  CreateOrUpdateRuleConfigMaps K c w1 = (Some cause, w2) →
  ∃ tc, (tc = [] ∨ tc = [EvMatch c]) ∧
    Reconcile K req w =
      ((Result_zero, Some (Errorf_w "cannot update rules configmaps" cause)),
       w2,
       fetched req ++ EvList (MustGetWatchNamespaces K) :: t1 ++ tc ++ [EvMaterialize c]).
Proof.
  intros Hget Hgate Hlist Hitems Hbefore Hskip Hreach Hfail.
  assert (materialize K c w1
          = (Return Result_zero (Some (Errorf_w "cannot update rules configmaps" cause)),
             w2, [EvMaterialize c])) as Hmat.
  { unfold materialize. by rewrite Hfail. }
  assert (∃ tc, (tc = [] ∨ tc = [EvMatch c]) ∧
            loopBody K instance c w1
            = (Return Result_zero (Some (Errorf_w "cannot update rules configmaps" cause)),
               w2, tc ++ [EvMaterialize c])) as (tc & Htc & Hbody).
  { unfold loopBody. rewrite Hskip.
    destruct (checks_selector instance c) eqn:Hguard.
    - destruct Hreach as [?|Hmatch]; [done|]. rewrite Hmatch, Hmat.
      exists [EvMatch c]. split; [by right|done].
    - rewrite Hmat. exists []. split; [by left|done]. }
  exists tc. split; [done|].
  rewrite Reconcile_body, (reconcileBody_pass req w instance lists Hget Hgate Hlist).
  rewrite Hitems, loop_app, Hbefore. simpl loop. by rewrite Hbody.
Qed.

End ReconcilerFacts.

(** ** The properties on the example cluster *)

Import Example.

(** C1 as stated fails: the target carries a deletion marker, [a2] is an
    enumerated candidate that is neither being deleted nor broken, and yet
    the materializer is never invoked for it, because the call for [a1]
    failed and ended the pass. *)
Lemma C1_counterexample_pass_ended_before_candidate :
  client_Get first_fails (req_NamespacedName request) idle = inr deleted
  ∧ DeletionTimestamp (rule_meta deleted) = Some 1700000000
  ∧ (gate first_fails deleted idle).1 = false
  ∧ ListObjectsByNamespace first_fails (MustGetWatchNamespaces first_fails)
      (gate first_fails deleted idle).2 = ([[a1; a2]], None)
  ∧ a2 ∈ collect [[a1; a2]]
  ∧ DeletionTimestamp (alert_meta a2) = None
  ∧ ParsingError (alert_spec a2) = ""
  ∧ (Reconcile first_fails request idle).2
      = fetched request ++ [EvList []; EvMaterialize a1]
  ∧ EvMaterialize a2 ∉ (Reconcile first_fails request idle).2.
Proof.
  repeat split; try reflexivity.
  - right; left.
  - change ((Reconcile first_fails request idle).2)
      with (fetched request ++ [EvList []; EvMaterialize a1]).
    unfold fetched. simpl.
    repeat (rewrite elem_of_cons || rewrite elem_of_nil).
    intros [?|[?|[?|[?|[[= ?]|[]]]]]]; discriminate.
Qed.

Lemma C1_witness :
  (∀ e, e ∈ (Reconcile third_fails request idle).2 → is_match_event e = false)
  ∧ EvMaterialize a1 ∈ (Reconcile third_fails request idle).2.
Proof.
  destruct (C1_deleted_target_skips_matcher_and_materializes
              third_fails request idle deleted 1700000000)
    as [Hnever Hcalled]; [reflexivity | reflexivity | lia |].
  split; [exact Hnever|].
  apply (Hcalled [[a3; a4; a1; a2]] [a3; a4] a1 [a2]); reflexivity.
Defined.

Lemma C2_witness :
  Reconcile one_malformed request busy = ((Result_zero, None), busy, fetched request).
Proof.
  apply (C2_throttled_reconcile_returns_at_once one_malformed request busy alive);
    reflexivity.
Defined.


Lemma C4_witness :
  ∃ tc, (tc = [] ∨ tc = [EvMatch a2]) ∧
    Reconcile third_fails request idle =
      ((Result_zero,
        Some (Errorf_w "cannot update rules configmaps"
                (ExternalError false "cannot write config map"))),
       {| written := ["a1"; "a3"]; tokens := 0 |},
       fetched request ++ EvList [] ::
         [EvMaterialize a3; EvMaterialize a1] ++ tc ++ [EvMaterialize a2]).
Proof.
  apply (C4_materializer_failure_aborts_pass
           third_fails request idle deleted [[a3; a4; a1; a2]] [a3; a4; a1] a2 []
           {| written := ["a1"; "a3"]; tokens := 0 |}
           [EvMaterialize a3; EvMaterialize a1]
           (ExternalError false "cannot write config map"));
    try reflexivity.
  left; reflexivity.
Defined.

Lemma C5_witness :
  DeletionTimestamp (alert_meta a4) ≠ None
  ∧ loopBody one_malformed alive a4 idle = (Next, idle, [])
  ∧ EvMaterialize a4 ∉ (Reconcile one_malformed request idle).2.
Proof.
  destruct (C5_deleted_or_broken_candidate_is_skipped one_malformed request idle a4)
    as [Hbody Hevents]; [left; discriminate|].
  split; [discriminate|]. split; [exact (Hbody alive idle)|].
  intros Hin. exact (Hevents (EvMaterialize a4) Hin eq_refl).
Defined.

Lemma C7_witness :
  Reconcile gone request idle
  = ((Result_zero, None), idle, [EvGet (req_NamespacedName request)]).
Proof.
  apply (C7_not_found_is_terminal_success gone request idle
           (ExternalError true "vmrules not found")); reflexivity.
Defined.

(** * More properties of [VMRuleReconciler.Reconcile] *)

Section ReconcilerMore.

Context {W : Type} (K : Collaborators W).

Implicit Types (instance : VMRule) (c : VMAlert) (w : W) (e : Event).

Lemma replay_app tr1 tr2 w :
  replay K (tr1 ++ tr2) w = replay K tr2 (replay K tr1 w).
Proof. unfold replay. by rewrite foldl_app. Qed.

Lemma materialize_replay c w :
  replay K (materialize K c w).2 w = (materialize K c w).1.2.
Proof.
  unfold materialize.
  by destruct (CreateOrUpdateRuleConfigMaps K c w) as [[err|] w'] eqn:Hcall;
    simpl; rewrite Hcall.
Qed.

Lemma loopBody_replay instance c w :
  replay K (loopBody K instance c w).2 w = (loopBody K instance c w).1.2.
Proof.
  unfold loopBody. destruct (skipped c); [done|].
  destruct (checks_selector instance c); [|apply materialize_replay].
  destruct (isSelectorsMatchesTargetCRD K instance c _ _ w) as [err|[|]]; try done.
  pose proof (materialize_replay c w) as Hm.
  by destruct (materialize K c w) as [[ctl w'] tr].
Qed.

Lemma loop_replay instance items w :
  replay K (loop K instance items w).2 w = (loop K instance items w).1.2.
Proof.
  revert w. induction items as [|c items IH]; intros w; simpl; [done|].
  pose proof (loopBody_replay instance c w) as Hbody.
  destruct (loopBody K instance c w) as [[[|result err] w'] tr]; simpl in *; [|done].
  specialize (IH w').
  destruct (loop K instance items w') as [[ctl w''] tr']; simpl in *.
  by rewrite replay_app, Hbody.
Qed.

(** X1. After the admission gate, the world changes only through the
    materializer: the world [Reconcile] returns is the one the gate left,
    taken through the materializer calls of the trace, in their order.
    Selector evaluation, listing and logging write nothing. *)
Theorem X1_reconcile_writes_only_through_materializer req w instance :
  client_Get K (req_NamespacedName req) w = inr instance →
  (Reconcile K req w).1.2 = replay K (Reconcile K req w).2 (gate K instance w).2.
Proof.
  intros Hget. rewrite Reconcile_body; simpl.
  unfold reconcileBody, gate. rewrite Hget.
  destruct (MustThrottleReconcile K _) as [[|] w2]; simpl; [done|].
  destruct (ListObjectsByNamespace K _ w2) as [lists [err|]]; simpl; [done|].
  pose proof (loop_replay instance (collect lists) w2) as Hloop.
  by destruct (loop K instance (collect lists) w2) as [[ctl w3] tr].
Qed.

(** An event [EvMatch c] means the guard of the selector check held. *)
Lemma loop_match_checked instance items w c :
  EvMatch c ∈ (loop K instance items w).2 → checks_selector instance c = true.
Proof.
  revert w. induction items as [|c' items IH]; intros w; simpl.
  { by intros ?%elem_of_nil. }
  assert (EvMatch c ∈ (loopBody K instance c' w).2 →
          checks_selector instance c = true) as Hbody.
  { intros Hin.
    destruct (loopBody_events K instance c' w _ Hin) as [[= ->] Hskip].
    revert Hin. unfold loopBody. rewrite Hskip.
    destruct (checks_selector instance c'); [done|].
    rewrite materialize_trace, list_elem_of_singleton. discriminate. }
  destruct (loopBody K instance c' w) as [[[|result err] w'] tr]; simpl in *; [|done].
  specialize (IH w').
  destruct (loop K instance items w') as [[ctl w''] tr']; simpl in *.
  rewrite elem_of_app. naive_solver.
Qed.

(** A materializer call means the candidate was selected. *)
Lemma loop_materialized_selected instance items w c :
  EvMaterialize c ∈ (loop K instance items w).2 →
  c ∈ items ∧ skipped c = false ∧
  (checks_selector instance c = false
   ∨ ∃ w', isSelectorsMatchesTargetCRD K instance c (RuleSelector (alert_spec c))
             (RuleNamespaceSelector (alert_spec c)) w' = inr true).
Proof.
  revert w. induction items as [|c' items IH]; intros w; simpl.
  { by intros ?%elem_of_nil. }
  assert (EvMaterialize c ∈ (loopBody K instance c' w).2 →
          c = c' ∧ skipped c = false ∧
          (checks_selector instance c = false
           ∨ ∃ w', isSelectorsMatchesTargetCRD K instance c (RuleSelector (alert_spec c))
                     (RuleNamespaceSelector (alert_spec c)) w' = inr true)) as Hbody.
  { intros Hin.
    destruct (loopBody_events K instance c' w _ Hin) as [[= ->] Hskip].
    split; [done|]. split; [done|].
    revert Hin. unfold loopBody. rewrite Hskip.
    destruct (checks_selector instance c'); [|by left].
    destruct (isSelectorsMatchesTargetCRD K instance c' _ _ w) as [err|[|]] eqn:Hm;
      simpl.
    - rewrite !elem_of_cons, elem_of_nil. naive_solver.
    - intros _. right. by exists w.
    - rewrite !elem_of_cons, elem_of_nil. naive_solver. }
  destruct (loopBody K instance c' w) as [[[|result err] w'] tr]; simpl in *.
  - specialize (IH w').
    destruct (loop K instance items w') as [[ctl w''] tr']; simpl in *.
    intros [Hin|Hin]%elem_of_app.
    + destruct (Hbody Hin) as (-> & ? & ?). split; [by left|done].
    + destruct (IH Hin) as (? & ? & ?). split; [by right|done].
  - intros Hin. destruct (Hbody Hin) as (-> & ? & ?). split; [by left|done].
Qed.

(** X2. The materializer is only ever invoked for a candidate the pass
    enumerated, that is neither being deleted nor broken, and that was
    selected: the target is being deleted, or the candidate selects all
    rules, or its selector evaluation answered true. A candidate whose
    evaluation answered false or failed is never materialized on that
    account. *)
Theorem X2_materialized_only_if_selected req w c :
  EvMaterialize c ∈ (Reconcile K req w).2 →
  ∃ instance lists,
    client_Get K (req_NamespacedName req) w = inr instance
    ∧ ListObjectsByNamespace K (MustGetWatchNamespaces K) (gate K instance w).2
      = (lists, None)
    ∧ c ∈ collect lists
    ∧ DeletionTimestamp (alert_meta c) = None
    ∧ ParsingError (alert_spec c) = EmptyString
    ∧ (IsZero (DeletionTimestamp (rule_meta instance)) = false
       ∨ SelectAllByDefault (alert_spec c) = true
       ∨ ∃ w', isSelectorsMatchesTargetCRD K instance c (RuleSelector (alert_spec c))
                 (RuleNamespaceSelector (alert_spec c)) w' = inr true).
Proof.
  rewrite Reconcile_body; simpl. unfold reconcileBody, gate.
  destruct (client_Get K (req_NamespacedName req) w) as [err|instance]; simpl.
  { rewrite list_elem_of_singleton. discriminate. }
  destruct (MustThrottleReconcile K _) as [[|] w2] eqn:Hgate; simpl.
  { rewrite !elem_of_cons, elem_of_nil. naive_solver. }
  destruct (ListObjectsByNamespace K _ w2) as [lists [err|]] eqn:Hlist; simpl.
  { rewrite !elem_of_cons, elem_of_nil. naive_solver. }
  pose proof (loop_materialized_selected instance (collect lists) w2 c) as Hloop.
  destruct (loop K instance (collect lists) w2) as [[ctl w3] tr]; simpl in *.
  rewrite !elem_of_cons. intros [?|[?|[?|[?|Hin]]]]; try discriminate.
  destruct (Hloop Hin) as (Hc & Hskip & Hsel).
  exists instance, lists. rewrite Hgate. split; [done|]. split; [done|]. split; [done|].
  unfold skipped in Hskip. apply orb_false_iff in Hskip as [Hdel Herr].
  apply bool_decide_eq_false in Hdel, Herr.
  split; [by destruct (DeletionTimestamp (alert_meta c)); [destruct Hdel|]|].
  split; [by destruct (decide (ParsingError (alert_spec c) = EmptyString))|].
  destruct Hsel as [Hguard|Hmatch]; [|by right; right].
  unfold checks_selector in Hguard. apply andb_false_iff in Hguard as [?|Hall].
  - by left.
  - right; left. by apply negb_false_iff.
Qed.

(** X3. A candidate with [SelectAllByDefault] never has its selector
    evaluated, whatever the target; and when the pass reaches it and it is
    neither being deleted nor broken, the materializer is invoked for it. *)
Theorem X3_select_all_bypasses_matcher req w c :
  SelectAllByDefault (alert_spec c) = true →
  (EvMatch c ∉ (Reconcile K req w).2)
  ∧ ∀ instance lists before after,
      client_Get K (req_NamespacedName req) w = inr instance →
      (gate K instance w).1 = false →
      ListObjectsByNamespace K (MustGetWatchNamespaces K) (gate K instance w).2
        = (lists, None) →
      collect lists = before ++ c :: after →
      DeletionTimestamp (alert_meta c) = None →
      ParsingError (alert_spec c) = EmptyString →
      (loop K instance before (gate K instance w).2).1.1 = Next →
      EvMaterialize c ∈ (Reconcile K req w).2.
Proof.
  intros Hall.
  assert (∀ instance, checks_selector instance c = false) as Hguard.
  { intros instance. unfold checks_selector. rewrite Hall. apply andb_false_r. }
  split.
  - rewrite Reconcile_body; simpl.
    intros [Hnone|(instance & items & w' & _ & Hin)]%reconcileBody_events; [done|].
    apply loop_match_checked in Hin. by rewrite Hguard in Hin.
  - intros instance lists before after Hget Hgate Hlist Hitems Hnodel Hnoerr Hbefore.
    rewrite Reconcile_body, (reconcileBody_pass K req w instance lists Hget Hgate Hlist).
    rewrite Hitems, loop_app.
    destruct (loop K instance before (gate K instance w).2)
      as [[ctl w1] t1]; simpl in Hbefore; subst ctl.
    assert (skipped c = false) as Hskip.
    { unfold skipped. rewrite Hnodel, Hnoerr.
      by rewrite !bool_decide_eq_false_2 by (intros Hne; by apply Hne). }
    simpl loop. rewrite (loopBody_materializes K instance c w1 Hskip (Hguard instance)).
    pose proof (materialize_trace K c w1) as Htr.
    destruct (materialize K c w1) as [[[|result err] w2] tr]; simpl in Htr; subst tr.
    + destruct (loop K instance after w2) as [[ctl w3] t3]; simpl.
      repeat (rewrite elem_of_cons || rewrite elem_of_app). naive_solver.
    + simpl. repeat (rewrite elem_of_cons || rewrite elem_of_app). naive_solver.
Qed.

(** X4. When the listing of the candidates fails, [Reconcile] returns that
    failure, wrapped, with the zero result; whatever had been listed before
    the failure is dropped: no selector is evaluated, the materializer is
    not invoked, and the world is the one the gate left. *)
Theorem X4_list_failure_is_returned req w instance lists cause :
  client_Get K (req_NamespacedName req) w = inr instance →
  (gate K instance w).1 = false →
  ListObjectsByNamespace K (MustGetWatchNamespaces K) (gate K instance w).2
    = (lists, Some cause) →
  Reconcile K req w
  = ((Result_zero, Some (Errorf_w "cannot list vmauths for vmuser" cause)),
     (gate K instance w).2,
     fetched req ++ [EvList (MustGetWatchNamespaces K)])
  ∧ ∀ e, e ∈ (Reconcile K req w).2 → event_parent e = None.
Proof.
  unfold gate. intros Hget Hgate Hlist.
  assert (Reconcile K req w
          = ((Result_zero, Some (Errorf_w "cannot list vmauths for vmuser" cause)),
             (MustThrottleReconcile K (RegisterObjectStat K instance "vmrule" w)).2,
             fetched req ++ [EvList (MustGetWatchNamespaces K)])) as Heq.
  { rewrite Reconcile_body. unfold reconcileBody. rewrite Hget.
    destruct (MustThrottleReconcile K _) as [throttle w2]; simpl in *; subst throttle.
    by rewrite Hlist. }
  split; [done|]. rewrite Heq. simpl. intros e.
  rewrite !elem_of_cons, elem_of_nil. naive_solver.
Qed.


(** X6. The body of [Reconcile] never asks for a requeue: whichever way it
    returns, the result is the zero [ctrl.Result]; retries are left to the
    error it returns. *)
Theorem X6_body_never_requeues req w :
  (reconcileBody K req w).1.1.1 = Result_zero.
Proof.
  unfold reconcileBody.
  destruct (client_Get K (req_NamespacedName req) w) as [err|instance]; [done|].
  destruct (MustThrottleReconcile K _) as [[|] w2]; [done|].
  destruct (ListObjectsByNamespace K _ w2) as [lists [err|]]; [done|].
  destruct (loop K instance (collect lists) w2) as [[[|result err] w3] tr] eqn:Hloop;
    [done|].
  by destruct (loop_return K _ _ _ _ _ _ _ Hloop) as [-> _].
Qed.

(** Where an element of a concatenation lies. *)
Lemma app_eq_middle (l1 l2 t1 t2 : list Event) x :
  l1 ++ l2 = t1 ++ x :: t2 →
  (∃ k, l1 = t1 ++ x :: k ∧ t2 = k ++ l2) ∨ (∃ k, t1 = l1 ++ k ∧ l2 = k ++ x :: t2).
Proof.
  intros [(k & -> & Hk)|(k & -> & ->)]%app_eq_inv.
  - destruct k as [|y k]; simpl in Hk.
    + right. exists []. rewrite !app_nil_r. by split.
    + injection Hk as <- ->. left. by exists k.
  - right. by exists k.
Qed.

(** The materializer call of an iteration is made in the world the
    iteration started in, and succeeded when the iteration did not
    return. *)
Lemma loopBody_call instance c' w t1 c k :
  (loopBody K instance c' w).2 = t1 ++ EvMaterialize c :: k →
  c = c' ∧ replay K t1 w = w
  ∧ ((loopBody K instance c' w).1.1 = Next →
     (CreateOrUpdateRuleConfigMaps K c w).1 = None).
Proof.
  assert (∀ tr, (materialize K c' w).2 = tr → [EvMaterialize c'] = tr) as Hmt
    by (intros tr <-; by rewrite materialize_trace).
  assert ((materialize K c' w).1.1 = Next →
          (CreateOrUpdateRuleConfigMaps K c' w).1 = None) as Hok.
  { unfold materialize. by destruct (CreateOrUpdateRuleConfigMaps K c' w) as [[err|] w']. }
  unfold loopBody. destruct (skipped c'); simpl.
  { by destruct t1. }
  destruct (checks_selector instance c').
  - destruct (isSelectorsMatchesTargetCRD K instance c' _ _ w) as [err|[|]]; simpl.
    + destruct t1 as [|e1 [|e2 [|e3 t1]]]; simpl; intros [=].
    + specialize (Hmt (materialize K c' w).2 eq_refl).
      destruct (materialize K c' w) as [[ctl w'] tr]; simpl in *. subst tr.
      destruct t1 as [|e1 [|e2 [|e3 t1]]]; simpl; intros [=]; subst. done.
    + destruct t1 as [|e1 [|e2 t1]]; simpl; intros [=].
  - rewrite materialize_trace.
    destruct t1 as [|e1 [|e2 t1]]; simpl; intros [=]; subst. done.
Qed.

Lemma loop_calls_succeeded instance items w t1 c t2 :
  (loop K instance items w).1.1 = Next →
  (loop K instance items w).2 = t1 ++ EvMaterialize c :: t2 →
  (CreateOrUpdateRuleConfigMaps K c (replay K t1 w)).1 = None.
Proof.
  revert w t1. induction items as [|c' items IH]; intros w t1; simpl.
  { intros _. by destruct t1. }
  pose proof (loopBody_call instance c' w) as Hcall.
  pose proof (loopBody_replay instance c' w) as Hreplay.
  destruct (loopBody K instance c' w) as [[[|result err] w1] trb]; simpl in *; [|done].
  specialize (IH w1).
  destruct (loop K instance items w1) as [[ctl w'] tr']; simpl in *.
  intros -> [(k & -> & ->)|(k & -> & ->)]%app_eq_middle.
  - destruct (Hcall t1 c k eq_refl) as (_ & -> & Hok). by apply Hok.
  - rewrite replay_app, Hreplay. by apply IH.
Qed.

(** X17. When the body of [Reconcile] returns no error, every materializer
    call it made succeeded: each call of the trace, made in the world the
    earlier calls of the trace had left, returned no error. *)
Theorem X17_no_error_means_every_call_succeeded req w instance t1 c t2 :
  client_Get K (req_NamespacedName req) w = inr instance →
  (reconcileBody K req w).1.1.2 = None →
  (reconcileBody K req w).2 = t1 ++ EvMaterialize c :: t2 →
  (CreateOrUpdateRuleConfigMaps K c (replay K t1 (gate K instance w).2)).1 = None.
Proof.
  intros Hget. unfold reconcileBody, gate. rewrite Hget.
  destruct (MustThrottleReconcile K _) as [[|] w2]; simpl.
  { intros _. destruct t1 as [|e1 [|e2 [|e3 [|e4 t1]]]]; simpl; intros [=]. }
  destruct (ListObjectsByNamespace K _ w2) as [lists [err|]]; simpl; [done|].
  pose proof (loop_calls_succeeded instance (collect lists) w2) as Hloop.
  destruct (loop K instance (collect lists) w2) as [[[|result err] w3] tr] eqn:Hrun;
    simpl in *.
  - intros _.
    destruct t1 as [|e1 [|e2 [|e3 [|e4 t1]]]]; simpl; intros [=]; subst.
    by apply (Hloop t1 c t2).
  - destruct (loop_return K _ _ _ _ _ _ _ Hrun) as (_ & ? & ? & ? & _ & _ & ->). done.
Qed.

End ReconcilerMore.


(** ** The further properties on the example cluster *)

Lemma X1_witness :
  (Reconcile third_fails request idle).1.2
  = replay third_fails (Reconcile third_fails request idle).2
      (gate third_fails deleted idle).2.
Proof.
  apply (X1_reconcile_writes_only_through_materializer third_fails request idle deleted).
  reflexivity.
Defined.

Lemma X2_witness :
  ∃ instance lists,
    client_Get third_fails (req_NamespacedName request) idle = inr instance
    ∧ ListObjectsByNamespace third_fails (MustGetWatchNamespaces third_fails)
        (gate third_fails instance idle).2 = (lists, None)
    ∧ a1 ∈ collect lists
    ∧ DeletionTimestamp (alert_meta a1) = None
    ∧ ParsingError (alert_spec a1) = EmptyString
    ∧ (IsZero (DeletionTimestamp (rule_meta instance)) = false
       ∨ SelectAllByDefault (alert_spec a1) = true
       ∨ ∃ w', isSelectorsMatchesTargetCRD third_fails instance a1
                 (RuleSelector (alert_spec a1))
                 (RuleNamespaceSelector (alert_spec a1)) w' = inr true).
Proof.
  apply (X2_materialized_only_if_selected third_fails request idle a1).
  vm_compute. do 5 right. left.
Defined.

Import MoreExamples.

Lemma X3_witness :
  (EvMatch a5 ∉ (Reconcile mixed request idle).2)
  ∧ EvMaterialize a5 ∈ (Reconcile mixed request idle).2.
Proof.
  destruct (X3_select_all_bypasses_matcher mixed request idle a5 eq_refl)
    as [Hnever Hcalled].
  split; [exact Hnever|].
  apply (Hcalled alive [[a1; a5; a4]] [a1] [a4]); reflexivity.
Defined.

Lemma X4_witness :
  Reconcile listing_fails request idle
  = ((Result_zero,
      Some (Errorf_w "cannot list vmauths for vmuser"
              (ExternalError false "ns2: forbidden"))),
     (gate listing_fails alive idle).2,
     fetched request ++ [EvList ["ns1"; "ns2"]]).
Proof.
  apply (X4_list_failure_is_returned listing_fails request idle alive [[a1]]
           (ExternalError false "ns2: forbidden")); reflexivity.
Defined.

Lemma X17_witness :
  (CreateOrUpdateRuleConfigMaps mixed a5
     (replay mixed (fetched request ++ [EvList []; EvMatch a1])
        (gate mixed alive idle).2)).1 = None.
Proof.
  apply (X17_no_error_means_every_call_succeeded mixed request idle alive
           (fetched request ++ [EvList []; EvMatch a1]) a5 []); reflexivity.
Defined.


(** * Properties of the manager's start-up *)

Import Manager.

(** ** [strings.Split] and [getClientCacheOptions] *)

Lemma Split_nonempty s sep : Split s sep ≠ [].
Proof.
  destruct s as [|c s]; simpl; [done|].
  destruct (Ascii.eqb c sep); [done|]. by destruct (Split s sep).
Qed.

(** A string without the separator is its own single piece. *)
Lemma Split_sep_free s sep : sep_free sep s → Split s sep = [s].
Proof.
  induction s as [|c s IH]; simpl; [done|]. intros [Hc Hs].
  apply Ascii.eqb_neq in Hc. by rewrite Hc, (IH Hs).
Qed.

Lemma Split_app_sep x r sep :
  sep_free sep x → Split (x +:+ (String sep r)) sep = x :: Split r sep.
Proof.
  induction x as [|c x IH]; simpl.
  - intros _. by rewrite Ascii.eqb_refl.
  - intros [Hc Hx]. apply Ascii.eqb_neq in Hc. by rewrite Hc, (IH Hx).
Qed.

(** [Split] undoes [Join] on pieces that are free of the separator. *)
Lemma Split_Join l sep :
  l ≠ [] → Forall (sep_free sep) l → Split (Join l sep) sep = l.
Proof.
  induction l as [|x l IH]; [done|]. intros _ Hfree.
  apply Forall_cons in Hfree as [Hx Hl].
  destruct l as [|y l].
  - by apply Split_sep_free.
  - change (Join (x :: y :: l) sep) with (x +:+ (String sep (Join (y :: l) sep))).
    rewrite (Split_app_sep _ _ _ Hx). f_equal. by apply IH.
Qed.

(** [Join] undoes [Split]. *)
Lemma Join_Split s sep : Join (Split s sep) sep = s.
Proof.
  induction s as [|c s IH]; simpl; [done|].
  pose proof (Split_nonempty s sep) as Hne.
  destruct (Ascii.eqb_spec c sep) as [->|Hc].
  - destruct (Split s sep) as [|piece pieces]; [done|].
    simpl in *. by rewrite IH.
  - destruct (Split s sep) as [|piece pieces]; [done|].
    destruct pieces as [|piece' pieces]; simpl in *; by rewrite <-IH.
Qed.

Lemma Split_pieces_free s sep : Forall (sep_free sep) (Split s sep).
Proof.
  induction s as [|c s IH]; simpl.
  - by repeat constructor.
  - destruct (Ascii.eqb_spec c sep) as [->|Hc].
    + by constructor.
    + destruct (Split s sep) as [|piece pieces]; [by repeat constructor|].
      apply Forall_cons in IH as [Hp Hps]. by constructor.
Qed.

(** The entries of a non-empty value are the pieces [strings.Split] cuts
    it into at the commas. *)
Lemma entry_of_Split x s :
  entry_of x s ↔ s ≠ EmptyString ∧ x ∈ Split s ",".
Proof.
  unfold entry_of. split.
  - intros [Hs (before & after & Hfree & ->)]. split; [done|].
    rewrite Split_Join; [|by destruct before|done].
    apply elem_of_app. right. by left.
  - intros [Hs Hin]. split; [done|].
    apply list_elem_of_split in Hin as (before & after & Hsplit).
    exists before, after. rewrite <-Hsplit. split.
    + apply Split_pieces_free.
    + by rewrite Join_Split.
Qed.

(** The keys of [cacheClientObjectsByName] are the supported names. *)
Lemma cacheClientObjectsByName_None x :
  cacheClientObjectsByName !! x = None ↔ x ∉ supported.
Proof.
  unfold cacheClientObjectsByName. rewrite <-not_elem_of_list_to_map.
  unfold supported. simpl.
  repeat (rewrite elem_of_cons || rewrite elem_of_nil). naive_solver.
Qed.

(** The loop fails as soon as a name is not supported, whatever it has
    collected so far. *)
Lemma disableLoop_unsupported objects co x :
  x ∈ objects → x ∉ supported →
  ∃ y, y ∈ objects ∧ (y ∉ supported) ∧
    disableLoop objects co = inl (Errorf_q "not supported client object name=%q" y).
Proof.
  intros Hin Hx. revert co.
  induction objects as [|object objects IH]; intros co; [by apply elem_of_nil in Hin|].
  simpl. destruct (cacheClientObjectsByName !! object) as [o|] eqn:Hlook.
  - apply elem_of_cons in Hin as [->|Hin].
    + apply cacheClientObjectsByName_None in Hx. congruence.
    + destruct (IH Hin {| DisableFor := DisableFor co ++ [o] |}) as (y & ? & ? & ?).
      exists y. split; [by right|done].
  - exists object. split; [by left|]. split; [|done].
    by apply cacheClientObjectsByName_None.
Qed.

Lemma getClientCacheOptions_unsupported s x :
  entry_of x s → x ∉ supported →
  ∃ y, entry_of y s ∧ (y ∉ supported) ∧
    getClientCacheOptions s = inl (Errorf_q "not supported client object name=%q" y).
Proof.
  intros [Hs Hin]%entry_of_Split Hx. unfold getClientCacheOptions.
  rewrite bool_decide_eq_true_2 by (destruct s; [done|simpl; lia]).
  destruct (disableLoop_unsupported _ {| DisableFor := [] |} x Hin Hx) as (y & Hy & ? & ?).
  exists y. split; [|done]. by apply entry_of_Split.
Qed.

(** ** The start-up computation *)

Lemma elem_of_bind {A B} (m : M A) (k : A → M B) s :
  s ∈ (m ≫= k).1 → s ∈ m.1 ∨ ∃ a, m.2 = inr a ∧ s ∈ (k a).1.
Proof.
  destruct m as [tr [o|a]]; simpl; [by left|].
  destruct (k a) as [tr' r] eqn:Hk; simpl.
  rewrite elem_of_app. intros [?|?]; [by left|].
  right. exists a. by rewrite Hk.
Qed.

Lemma try_trace s res wrap : (try s res wrap).1 = [s].
Proof. by destruct res. Qed.

Lemma elem_of_forEach {A} (l : list A) (body : A → M unit) s :
  s ∈ (forEach l body).1 → ∃ x, x ∈ l ∧ s ∈ (body x).1.
Proof.
  induction l as [|x l IH]; simpl; [by intros ?%elem_of_nil|].
  intros [Hin|(_ & _ & Hin)]%elem_of_bind.
  - exists x. split; [by left|done].
  - destruct (IH Hin) as (y & ? & ?). exists y. split; [by right|done].
Qed.

(** [prepare] once start-up got as far as the cache options. *)
Lemma prepare_started e :
  starts e →
  prepare e =
    match getClientCacheOptions (disableCacheForObjects (flags e)) with
    | inl err =>
        (started,
         inl (Returns (Some (Errorf_w "cannot build cache options for manager" err))))
    | inr co =>
        match configureTLS (flags e) with
        | inl p => (started, inl (Panics p))
        | inr opts => (started, inr (co, opts))
        end
    end.
Proof.
  intros (Hv & Hbase & Hp & Hnss & Hcfg). unfold prepare, must.
  rewrite Hv, Hbase, Hp, Hnss, Hcfg.
  destruct (getClientCacheOptions _) as [err|co]; [done|].
  by destruct (configureTLS (flags e)) as [p|opts].
Qed.

(** [prepare] hands on the cache options and the TLS options it computed,
    and only when start-up got that far. *)
Lemma prepare_result e co tlsOpts :
  (prepare e).2 = inr (co, tlsOpts) →
  starts e
  ∧ getClientCacheOptions (disableCacheForObjects (flags e)) = inr co
  ∧ configureTLS (flags e) = inr tlsOpts.
Proof.
  unfold prepare, must, starts.
  destruct (version (flags e)); [done|].
  destruct (env_MustGetBaseConfig e); [done|].
  destruct (printDefaults (flags e)); [by destruct (env_PrintDefaults e)|].
  destruct (env_MustGetWatchNamespaces e); [done|].
  destruct (env_GetConfigOrDie e); [|done].
  destruct (getClientCacheOptions _) as [err|co']; [done|].
  destruct (configureTLS (flags e)) as [p|opts']; [done|].
  simpl. by intros [= -> ->].
Qed.

Lemma prepare_phase e s : s ∈ (prepare e).1 → phase s = 0%nat.
Proof.
  unfold prepare, must.
  destruct (version (flags e)); simpl.
  { rewrite list_elem_of_singleton. by intros ->. }
  destruct (env_MustGetBaseConfig e); simpl.
  { rewrite list_elem_of_singleton. by intros ->. }
  destruct (printDefaults (flags e)); simpl.
  { destruct (env_PrintDefaults e); simpl;
      repeat (rewrite elem_of_cons || rewrite elem_of_nil); naive_solver. }
  destruct (env_MustGetWatchNamespaces e); simpl.
  { repeat (rewrite elem_of_cons || rewrite elem_of_nil). naive_solver. }
  destruct (env_GetConfigOrDie e); simpl.
  2: { repeat (rewrite elem_of_cons || rewrite elem_of_nil). naive_solver. }
  destruct (getClientCacheOptions _) as [err|co]; simpl;
    [|destruct (configureTLS (flags e)) as [p|opts]; simpl];
    repeat (rewrite elem_of_cons || rewrite elem_of_nil); naive_solver.
Qed.

Lemma createManager_phase e co tlsOpts s :
  s ∈ (createManager e co tlsOpts).1 → phase s = 1%nat.
Proof.
  unfold createManager.
  intros [Hin|(_ & _ & [Hin|(_ & _ & Hin)]%elem_of_bind)]%elem_of_bind;
    rewrite try_trace, list_elem_of_singleton in Hin; by subst s.
Qed.

(** The CRD ownership block, by the way it ends. *)
Lemma initCRDOwnership_cases e :
  initCRDOwnership e =
    if ownsCRDs e then
      match env_client_New e with
      | Some err => ([NewInitClient], inl (Returns (Some err)))
      | None =>
          match env_Init e with
          | Some err => ([NewInitClient; InitCRD], inl (Returns (Some err)))
          | None => ([NewInitClient; InitCRD], inr tt)
          end
      end
    else ([], inr tt).
Proof.
  unfold initCRDOwnership. destruct (ownsCRDs e); [|done]. simpl.
  destruct (env_client_New e); [done|]. by destruct (env_Init e).
Qed.

Lemma initCRDOwnership_phase e s :
  s ∈ (initCRDOwnership e).1 → phase s = 2%nat.
Proof.
  rewrite initCRDOwnership_cases.
  destruct (ownsCRDs e); [|by intros ?%elem_of_nil].
  destruct (env_client_New e); [|destruct (env_Init e)]; simpl;
    repeat (rewrite elem_of_cons || rewrite elem_of_nil); naive_solver.
Qed.

Lemma ownsCRDs_true e :
  ownsCRDs e = true ↔ disableCRDOwnership (flags e) = false ∧ env_watchNss e = [].
Proof.
  unfold ownsCRDs. rewrite andb_true_iff, negb_true_iff, bool_decide_eq_true.
  split; intros [? Hnil]; (split; [done|]).
  - by apply nil_length_inv.
  - by rewrite Hnil.
Qed.

Lemma registerAndStart_phase e s :
  s ∈ (registerAndStart e).1 → (3 ≤ phase s)%nat.
Proof.
  unfold registerAndStart.
  intros [Hweb|(_ & _ & [Hlab|(_ & _ & [Hctl|(_ & _ & Hstart)]%elem_of_bind)]%elem_of_bind)]%elem_of_bind.
  - destruct (enableWebhooks (flags e)); [|by apply elem_of_nil in Hweb].
    apply elem_of_forEach in Hweb as (obj & _ & Hin).
    rewrite try_trace, list_elem_of_singleton in Hin. by subst s.
  - apply list_elem_of_singleton in Hlab. subst s. simpl. lia.
  - apply elem_of_forEach in Hctl as (k & _ & Hin).
    rewrite try_trace, list_elem_of_singleton in Hin. subst s. simpl. lia.
  - revert Hstart. unfold startManager.
    repeat (intros [Hin|(_ & _ & Hin)]%elem_of_bind;
            [first [rewrite try_trace in Hin | idtac];
             apply list_elem_of_singleton in Hin; subst s; simpl; lia
            |revert Hin]).
    destruct (env_mgr_Start e); by intros ?%elem_of_nil.
Qed.

(** The shape of a start-up: either it stops before the CRD ownership
    block, or its steps are those before the block, the block's, and those
    after it — none, when the block fails, and then [RunManager] ends as
    the block did. *)
Lemma RunManager_shape e :
  (∀ s, s ∈ (RunManager e).1 → (phase s ≤ 1)%nat)
  ∨ ∃ lo hi,
      (RunManager e).1 = (lo ++ (initCRDOwnership e).1) ++ hi
      ∧ (∀ s, s ∈ lo → (phase s ≤ 1)%nat)
      ∧ (∀ s, s ∈ hi → (3 ≤ phase s)%nat)
      ∧ ∀ o, (initCRDOwnership e).2 = inl o → hi = [] ∧ (RunManager e).2 = o.
Proof.
  unfold RunManager, runManager.
  pose proof (prepare_phase e) as Hprep.
  destruct (prepare e) as [t0 [o|[co tlsOpts]]]; simpl in *.
  { left. intros s Hs. rewrite (Hprep s Hs). lia. }
  pose proof (createManager_phase e co tlsOpts) as Hcreate.
  destruct (createManager e co tlsOpts) as [t1 [o|[]]]; simpl in *.
  { left. intros s [Hs|Hs]%elem_of_app; [rewrite (Hprep s Hs)|rewrite (Hcreate s Hs)]; lia. }
  right. exists (t0 ++ t1).
  pose proof (registerAndStart_phase e) as Hrest.
  destruct (initCRDOwnership e) as [t2 [o|[]]]; simpl in *.
  - exists []. rewrite app_nil_r, (assoc_L (++)). split; [done|].
    split; [|split].
    + intros s [Hs|Hs]%elem_of_app; [rewrite (Hprep s Hs)|rewrite (Hcreate s Hs)]; lia.
    + by intros s ?%elem_of_nil.
    + intros o' Ho. by injection Ho as ->.
  - destruct (registerAndStart e) as [t3 [o|[]]]; simpl in *;
      exists t3; rewrite !(assoc_L (++)); (split; [done|]);
      (split; [|split; [done|intros o' Ho; discriminate Ho]]);
      intros s [Hs|Hs]%elem_of_app; [rewrite (Hprep s Hs)|rewrite (Hcreate s Hs)
                                    |rewrite (Hprep s Hs)|rewrite (Hcreate s Hs)]; lia.
Qed.

(** What comes before a step that only occurs in the first part of a
    list is in that first part. *)
Lemma before_in_first (lo hi before after : list Step) s x :
  lo ++ hi = before ++ s :: after → s ∉ hi → x ∈ before → x ∈ lo.
Proof.
  intros [(k & -> & _)|(k & -> & ->)]%app_eq_inv Hs Hx.
  - apply elem_of_app. by left.
  - destruct Hs. apply elem_of_app. right. by left.
Qed.

(** The options [ctrl.NewManager] is called with are the cache options and
    the TLS options computed before: it is not called when either fails. *)
Lemma NewManager_options e opts :
  NewManager opts ∈ (RunManager e).1 →
  getClientCacheOptions (disableCacheForObjects (flags e)) = inr (ClientCache opts)
  ∧ configureTLS (flags e) = inr (TLSOpts opts).
Proof.
  intros Hin.
  assert (NewManager opts ∈ (runManager e).1) as Hrun.
  { revert Hin. unfold RunManager. by destruct (runManager e) as [tr [o|[]]]. }
  clear Hin. unfold runManager in Hrun.
  apply elem_of_bind in Hrun as [Hin|([co tlsOpts] & Hprep & Hin)].
  { by apply prepare_phase in Hin. }
  destruct (prepare_result e co tlsOpts Hprep) as (_ & Hco & Htls).
  apply elem_of_bind in Hin as [Hin|(_ & _ & Hin)].
  - unfold createManager in Hin.
    apply elem_of_bind in Hin as [Hin|(_ & _ & Hin)].
    + rewrite try_trace, list_elem_of_singleton in Hin. by injection Hin as ->.
    + apply elem_of_bind in Hin as [Hin|(_ & _ & Hin)];
        rewrite try_trace, list_elem_of_singleton in Hin; discriminate Hin.
  - apply elem_of_bind in Hin as [Hin|(_ & _ & Hin)].
    + by apply initCRDOwnership_phase in Hin.
    + apply registerAndStart_phase in Hin. simpl in Hin. lia.
Qed.

(** When [prepare] stops, [RunManager] ends as it did, after its steps. *)
Lemma RunManager_stopped e o :
  (prepare e).2 = inl o → RunManager e = ((prepare e).1, o).
Proof.
  unfold RunManager, runManager.
  by destruct (prepare e) as [tr [o'|[co tlsOpts]]]; simpl; [intros [= ->]|].
Qed.

(** A step of the CRD ownership block in the trace is one the block took. *)
Lemma ownership_step e s :
  phase s = 2%nat → s ∈ (RunManager e).1 → s ∈ (initCRDOwnership e).1.
Proof.
  intros Hph Hin.
  destruct (RunManager_shape e) as [Hlow|(lo & hi & Htr & Hlo & Hhi & _)].
  { apply Hlow in Hin. lia. }
  rewrite Htr in Hin. apply elem_of_app in Hin as [[Hin|Hin]%elem_of_app|Hin].
  - apply Hlo in Hin. lia.
  - done.
  - apply Hhi in Hin. lia.
Qed.

(** When the block fails after it was entered, [RunManager] ends as the
    block did, and no later step is taken. *)
Lemma ownership_failure e o s :
  (initCRDOwnership e).2 = inl o → phase s = 2%nat → s ∈ (RunManager e).1 →
  (RunManager e).2 = o ∧ ∀ s', s' ∈ (RunManager e).1 → (phase s' ≤ 2)%nat.
Proof.
  intros Hfail Hph Hin.
  destruct (RunManager_shape e) as [Hlow|(lo & hi & Htr & Hlo & Hhi & Hstop)].
  { apply Hlow in Hin. lia. }
  destruct (Hstop o Hfail) as [-> Hout]. split; [done|].
  intros s'. rewrite Htr, app_nil_r.
  intros [Hin'|Hin']%elem_of_app.
  - apply Hlo in Hin'. lia.
  - apply initCRDOwnership_phase in Hin'. lia.
Qed.

(** When a reconciler is set up, the block had succeeded and its steps are
    in the trace. *)
Lemma setup_after_ownership e k :
  SetupWithManager k ∈ (RunManager e).1 →
  (initCRDOwnership e).2 = inr tt
  ∧ ∀ s, s ∈ (initCRDOwnership e).1 → s ∈ (RunManager e).1.
Proof.
  intros Hin.
  destruct (RunManager_shape e) as [Hlow|(lo & hi & Htr & Hlo & Hhi & Hstop)].
  { apply Hlow in Hin. simpl in Hin. lia. }
  split.
  - destruct ((initCRDOwnership e).2) as [o|[]] eqn:Hres; [|done].
    destruct (Hstop o eq_refl) as [-> _].
    rewrite Htr, app_nil_r in Hin. apply elem_of_app in Hin as [Hin|Hin].
    + apply Hlo in Hin. simpl in Hin. lia.
    + by apply initCRDOwnership_phase in Hin.
  - intros s Hs. rewrite Htr, !elem_of_app. by left; right.
Qed.


(** ** The specified properties *)

(** C6. The CRD ownership block ([client.New], then [vmv1beta1.Init]) runs
    only when ownership is not disabled and no watch namespace is
    configured; no reconciler is set up before [Init], and when ownership
    is on, a reconciler is only set up after [Init] has run and succeeded;
    a failure of [Init], or of the client it needs, is what [RunManager]
    returns, and no reconciler is set up then. *)
Theorem C6_crd_ownership_before_reconcilers e :
  (∀ s, s = NewInitClient ∨ s = InitCRD → s ∈ (RunManager e).1 →
     disableCRDOwnership (flags e) = false ∧ env_watchNss e = [])
  ∧ (∀ before after k,
       (RunManager e).1 = before ++ InitCRD :: after → SetupWithManager k ∉ before)
  ∧ (∀ k, SetupWithManager k ∈ (RunManager e).1 →
       disableCRDOwnership (flags e) = false → env_watchNss e = [] →
       InitCRD ∈ (RunManager e).1 ∧ env_client_New e = None ∧ env_Init e = None)
  ∧ (∀ err, InitCRD ∈ (RunManager e).1 → env_Init e = Some err →
       (RunManager e).2 = Returns (Some err)
       ∧ ∀ k, SetupWithManager k ∉ (RunManager e).1)
  ∧ (∀ err, NewInitClient ∈ (RunManager e).1 → env_client_New e = Some err →
       (RunManager e).2 = Returns (Some err)
       ∧ ∀ k, SetupWithManager k ∉ (RunManager e).1).
Proof.
  split; [|split; [|split; [|split]]].
  - intros s Hs Hin. apply ownsCRDs_true.
    assert (phase s = 2%nat) as Hph by (by destruct Hs as [->| ->]).
    apply (ownership_step e s Hph) in Hin.
    rewrite initCRDOwnership_cases in Hin.
    destruct (ownsCRDs e); [done|]. by apply elem_of_nil in Hin.
  - intros before after k Htr Hk.
    destruct (RunManager_shape e) as [Hlow|(lo & hi & Hshape & Hlo & Hhi & _)].
    + assert (InitCRD ∈ (RunManager e).1) as Hin
        by (rewrite Htr, elem_of_app; right; by left).
      apply Hlow in Hin. simpl in Hin. lia.
    + rewrite Hshape in Htr.
      assert (SetupWithManager k ∈ lo ++ (initCRDOwnership e).1) as Hin.
      { apply (before_in_first _ hi before after InitCRD); [done| |done].
        intros Hinit%Hhi. simpl in Hinit. lia. }
      apply elem_of_app in Hin as [Hin|Hin].
      * apply Hlo in Hin. simpl in Hin. lia.
      * by apply initCRDOwnership_phase in Hin.
  - intros k Hk Hflag Hnss.
    destruct (setup_after_ownership e k Hk) as [Hres Hsteps].
    assert (ownsCRDs e = true) as Howns by (by apply ownsCRDs_true).
    rewrite initCRDOwnership_cases, Howns in Hres, Hsteps.
    destruct (env_client_New e); [done|]. destruct (env_Init e); [done|].
    split; [|done]. apply Hsteps. right; by left.
  - intros err Hin Herr.
    assert (initCRDOwnership e = ([NewInitClient; InitCRD], inl (Returns (Some err))))
      as Hblock.
    { apply (ownership_step e InitCRD eq_refl) in Hin. revert Hin.
      rewrite initCRDOwnership_cases, Herr.
      destruct (ownsCRDs e); [|by intros ?%elem_of_nil].
      destruct (env_client_New e); simpl; [|done].
      rewrite list_elem_of_singleton. discriminate. }
    destruct (ownership_failure e (Returns (Some err)) InitCRD) as [Hout Hlow];
      [by rewrite Hblock|done|done|].
    split; [done|]. intros k Hk%Hlow. simpl in Hk. lia.
  - intros err Hin Herr.
    assert (initCRDOwnership e = ([NewInitClient], inl (Returns (Some err)))) as Hblock.
    { apply (ownership_step e NewInitClient eq_refl) in Hin. revert Hin.
      rewrite initCRDOwnership_cases, Herr.
      destruct (ownsCRDs e); [done|]. by intros ?%elem_of_nil. }
    destruct (ownership_failure e (Returns (Some err)) NewInitClient) as [Hout Hlow];
      [by rewrite Hblock|done|done|].
    split; [done|]. intros k Hk%Hlow. simpl in Hk. lia.
Qed.

(** C8. With [-mtls.enable] but without [-tls.enable], [configureTLS]
    panics; start-up never gets past its preparation, so the manager is
    neither created nor started; and once start-up has got as far as the
    options of the manager (it did not end before, and the cache options
    were accepted), [RunManager] ends with that panic. *)
Theorem C8_mtls_without_tls_panics e :
  mtlsEnable (flags e) = true → tlsEnable (flags e) = false →
  configureTLS (flags e)
    = inl (panic_msg "-tls.enable flag must be set before using mtls.enable")
  ∧ (∀ s, s ∈ (RunManager e).1 → phase s = 0%nat)
  ∧ (∀ opts, NewManager opts ∉ (RunManager e).1)
  ∧ (MgrStart ∉ (RunManager e).1)
  ∧ (starts e →
     ∀ co, getClientCacheOptions (disableCacheForObjects (flags e)) = inr co →
     RunManager e
     = (started,
        Panics (panic_msg "-tls.enable flag must be set before using mtls.enable"))).
Proof.
  intros Hmtls Htls.
  assert (configureTLS (flags e)
          = inl (panic_msg "-tls.enable flag must be set before using mtls.enable"))
    as Hpanic by (unfold configureTLS; by rewrite Hmtls, Htls).
  assert (∃ o, (prepare e).2 = inl o) as [o Hstop].
  { destruct ((prepare e).2) as [o|[co tlsOpts]] eqn:Hres; [by exists o|].
    destruct (prepare_result e co tlsOpts Hres) as (_ & _ & Htlsopts). congruence. }
  assert (∀ s, s ∈ (RunManager e).1 → phase s = 0%nat) as Hprep.
  { rewrite (RunManager_stopped e o Hstop). apply prepare_phase. }
  split; [done|]. split; [done|]. split; [|split].
  - by intros opts Hin%Hprep.
  - by intros Hin%Hprep.
  - intros Hstarts co Hco.
    assert (prepare e
            = (started, inl (Panics (panic_msg
                 "-tls.enable flag must be set before using mtls.enable")))) as Hend
      by (by rewrite (prepare_started e Hstarts), Hco, Hpanic).
    rewrite (RunManager_stopped e _ (f_equal snd Hend)). by rewrite Hend.
Qed.

(** C10. When the value of [-controller.disableCacheFor] has a
    comma-separated entry outside the supported names,
    [getClientCacheOptions] returns an error that names an unsupported entry
    of the value, [ctrl.NewManager] is never called, and [RunManager], once
    it has got as far as the cache options, returns that error, wrapped. For
    the empty value the options disable the cache for nothing, and so do the
    options given to [ctrl.NewManager]. *)
Theorem C10_unsupported_cache_object_aborts_startup e x :
  entry_of x (disableCacheForObjects (flags e)) → x ∉ supported →
  (∃ y, entry_of y (disableCacheForObjects (flags e)) ∧ (y ∉ supported) ∧
     getClientCacheOptions (disableCacheForObjects (flags e))
       = inl (Errorf_q "not supported client object name=%q" y)
     ∧ (starts e →
        RunManager e
        = (started,
           Returns (Some (Errorf_w "cannot build cache options for manager"
                            (Errorf_q "not supported client object name=%q" y))))))
  ∧ (∀ opts, NewManager opts ∉ (RunManager e).1)
  ∧ getClientCacheOptions EmptyString = inr {| DisableFor := [] |}
  ∧ ∀ e' opts, disableCacheForObjects (flags e') = EmptyString →
      NewManager opts ∈ (RunManager e').1 → DisableFor (ClientCache opts) = [].
Proof.
  intros Hentry Hx.
  destruct (getClientCacheOptions_unsupported _ x Hentry Hx) as (y & Hy & Hyu & Herr).
  split; [|split; [|split]].
  - exists y. split; [done|]. split; [done|]. split; [done|].
    intros Hstarts.
    assert (prepare e
            = (started,
               inl (Returns (Some (Errorf_w "cannot build cache options for manager"
                      (Errorf_q "not supported client object name=%q" y))))))
      as Hprep by (by rewrite (prepare_started e Hstarts), Herr).
    rewrite (RunManager_stopped e _ (f_equal snd Hprep)). by rewrite Hprep.
  - intros opts [Hco _]%NewManager_options. congruence.
  - done.
  - intros e' opts Hempty [Hco _]%NewManager_options.
    rewrite Hempty in Hco. by injection Hco as <-.
Qed.

(** ** The properties on example start-ups *)

Lemma C6_witness :
  (RunManager env_init_fails).2 = Returns (Some (ExternalError false "cannot patch CRD"))
  ∧ ∀ k, SetupWithManager k ∉ (RunManager env_init_fails).1.
Proof.
  destruct (C6_crd_ownership_before_reconcilers env_init_fails)
    as (_ & _ & _ & Hfails & _).
  apply (Hfails (ExternalError false "cannot patch CRD")); [|reflexivity].
  vm_compute. do 10 right. left.
Defined.

Lemma C8_witness :
  configureTLS (flags (env flags_mtls_only []))
    = inl (panic_msg "-tls.enable flag must be set before using mtls.enable")
  ∧ RunManager (env flags_mtls_only [])
    = (started,
       Panics (panic_msg "-tls.enable flag must be set before using mtls.enable")).
Proof.
  destruct (C8_mtls_without_tls_panics (env flags_mtls_only []) eq_refl eq_refl)
    as (Hpanic & _ & _ & _ & Hends).
  split; [exact Hpanic|].
  apply (Hends ltac:(by repeat split) {| DisableFor := [] |} eq_refl).
Defined.

Lemma C10_witness :
  ∃ y, (y ∉ supported)
    ∧ getClientCacheOptions "pod,service"
      = inl (Errorf_q "not supported client object name=%q" y).
Proof.
  destruct (C10_unsupported_cache_object_aborts_startup
              (env flags_bad_cache []) "service")
    as [(y & _ & Hy & Herr & _) _].
  - split; [discriminate|]. exists ["pod"], []. split; [|reflexivity].
    repeat constructor; discriminate.
  - unfold supported. intros Hin.
    repeat (apply elem_of_cons in Hin as [Hin|Hin]; [discriminate Hin|]).
    by apply elem_of_nil in Hin.
  - exists y. split; [exact Hy|exact Herr].
Defined.

(** ** The readiness check *)

(** The run that takes a step is at that step's place, hence in range. *)
Lemma set_run_lookup s i j p q :
  runs s !! i = Some q →
  runs (set_run s i p) !! j = if decide (i = j) then Some p else runs s !! j.
Proof.
  intros Hi. unfold set_run; simpl. destruct (decide (i = j)) as [->|Hne].
  - apply list_lookup_insert_eq. by eapply lookup_lt_Some.
  - by apply list_lookup_insert_ne.
Qed.

(** A step keeps the variable, or is a store of 1. *)
Lemma act_flag s a s' :
  act s a = Some s' →
  wasCacheSynced s' = wasCacheSynced s ∨ wasCacheSynced s' = 1.
Proof.
  destruct a as [|i|i ok|i]; simpl.
  - intros [= <-]. by left.
  - destruct (runs s !! i) as [[| | |]|]; try done.
    case_bool_decide; intros [= <-]; by left.
  - destruct (runs s !! i) as [[| | |]|]; try done.
    destruct ok; intros [= <-]; by left.
  - destruct (runs s !! i) as [[| | |]|]; try done.
    intros [= <-]. by right.
Qed.

(** Once the variable is set, a step keeps it set, and a check on the fast
    path stays on it. *)
Lemma act_latched s a s' i :
  0 < wasCacheSynced s → fast (runs s !! i) → act s a = Some s' →
  0 < wasCacheSynced s' ∧ fast (runs s' !! i).
Proof.
  intros Hset Hfast. destruct a as [|j|j ok|j]; simpl.
  - intros [= <-]; simpl. split; [done|].
    destruct (runs s !! i) as [p|] eqn:Hi.
    + by rewrite (lookup_app_l_Some _ _ _ _ Hi).
    + apply lookup_ge_None in Hi.
      destruct (decide (i = length (runs s))) as [->|Hne].
      * rewrite list_lookup_middle by done. right; by left.
      * left. apply lookup_ge_None. rewrite length_app; simpl. lia.
  - destruct (runs s !! j) as [[| | |]|] eqn:Hj; try done.
    rewrite bool_decide_eq_true_2 by done. intros [= <-]. split; [done|].
    rewrite (set_run_lookup s j i _ _ Hj). case_decide; [|done]. by right; right.
  - destruct (runs s !! j) as [[| | |]|] eqn:Hj; try done.
    assert (j ≠ i) as Hne.
    { intros ->. rewrite Hj in Hfast. by destruct Hfast as [?|[?|?]]. }
    destruct ok; intros [= <-]; (split; [done|]);
      rewrite (set_run_lookup s j i _ _ Hj); by case_decide.
  - destruct (runs s !! j) as [[| | |]|] eqn:Hj; try done.
    assert (j ≠ i) as Hne.
    { intros ->. rewrite Hj in Hfast. by destruct Hfast as [?|[?|?]]. }
    intros [= <-]; simpl. split; [done|].
    by rewrite list_lookup_insert_ne.
Qed.

Lemma run_latched sched s s' i :
  0 < wasCacheSynced s → fast (runs s !! i) → run s sched = Some s' →
  0 < wasCacheSynced s' ∧ fast (runs s' !! i).
Proof.
  revert s. induction sched as [|a sched IH]; intros s Hset Hfast; simpl.
  - by intros [= <-].
  - destruct (act s a) as [s1|] eqn:Hact; [|done].
    destruct (act_latched s a s1 i Hset Hfast Hact) as [Hset1 Hfast1].
    by apply IH.
Qed.

(** From start-up on, the variable is 0 or 1. *)
Lemma run_flag sched s s' :
  (wasCacheSynced s = 0 ∨ wasCacheSynced s = 1) → run s sched = Some s' →
  wasCacheSynced s' = 0 ∨ wasCacheSynced s' = 1.
Proof.
  revert s. induction sched as [|a sched IH]; intros s Hs; simpl.
  - by intros [= <-].
  - destruct (act s a) as [s1|] eqn:Hact; [|done].
    apply IH. destruct (act_flag s a s1 Hact) as [->| ->]; [done|by right].
Qed.

Lemma run_stays_set sched s s' :
  0 < wasCacheSynced s → run s sched = Some s' → 0 < wasCacheSynced s'.
Proof.
  revert s. induction sched as [|a sched IH]; intros s Hset; simpl.
  - by intros [= <-].
  - destruct (act s a) as [s1|] eqn:Hact; [|done].
    apply IH. destruct (act_flag s a s1 Hact) as [->| ->]; [done|lia].
Qed.

Lemma insert_last (l : list Probe) p q :
  <[length l := q]> (l ++ [p]) = l ++ [q].
Proof. rewrite insert_app_r_alt by lia. by rewrite Nat.sub_diag. Qed.

(** A check that runs alone, from the request to its return, does what
    [readyCheck] says. *)
Lemma readyCheck_alone s ok :
  let i := length (runs s) in
  let '(flag, err, waited) := readyCheck (wasCacheSynced s) ok in
  run s ([Request; LoadSynced i]
         ++ (if bool_decide (0 < wasCacheSynced s) then []
             else WaitReturns i ok :: (if ok then [StoreSynced i] else [])))
  = Some {| wasCacheSynced := flag; runs := runs s ++ [Done err waited] |}.
Proof.
  unfold readyCheck. simpl.
  rewrite list_lookup_middle by done.
  destruct (bool_decide (0 < wasCacheSynced s)) eqn:Hset; simpl.
  - unfold set_run; simpl. by rewrite insert_last.
  - unfold set_run; simpl. rewrite insert_last.
    rewrite list_lookup_middle by done.
    destruct ok; simpl.
    + rewrite insert_last.
      rewrite list_lookup_middle by done.
      by rewrite insert_last.
    + by rewrite insert_last.
Qed.

Lemma snoc_lookup_Some (l : list Probe) p i q :
  (l ++ [p]) !! i = Some q ↔ l !! i = Some q ∨ (i = length l ∧ p = q).
Proof.
  rewrite lookup_snoc_Some. split.
  - intros [[_ ?]|?]; [by left|by right].
  - intros [Hl|?]; [left|by right]. split; [by eapply lookup_lt_Some|done].
Qed.

(** Replacing a run that is neither of the two kinds the invariant counts
    keeps the invariant, when the new run is accounted for. *)
Lemma consistent_set s j p q flag :
  consistent s →
  runs s !! j = Some q →
  q ≠ Done None true →
  (flag = wasCacheSynced s ∨ (flag = 1 ∧ p = Done None true)) →
  (p = Done None true → flag = 1) →
  (p = Done None false → flag = 1) →
  (∀ err waited, p = Done (Some err) waited →
     waited = true ∧ err = errorString "controller sync cache in progress") →
  consistent {| wasCacheSynced := flag; runs := <[j := p]> (runs s) |}.
Proof.
  intros (H01 & Hset & Hfast & Hfail) Hj Hq Hflag Hp1 Hp2 Hp3.
  assert (∀ i, <[j := p]> (runs s) !! i
               = if decide (j = i) then Some p else runs s !! i) as Hlook.
  { intros i. destruct (decide (j = i)) as [->|Hne].
    - apply list_lookup_insert_eq. by eapply lookup_lt_Some.
    - by apply list_lookup_insert_ne. }
  unfold consistent; simpl. split; [|split; [|split]].
  - destruct Hflag as [->|[-> _]]; [done|by right].
  - split.
    + intros Hone. destruct Hflag as [->|[_ ->]].
      * apply Hset in Hone as [i Hi]. exists i. rewrite Hlook.
        case_decide; [|done]. subst i. congruence.
      * exists j. rewrite Hlook. by rewrite decide_True.
    + intros [i Hi]. rewrite Hlook in Hi. case_decide.
      * injection Hi as ->. by apply Hp1.
      * destruct Hflag as [->|[-> _]]; [|done]. apply Hset. by exists i.
  - intros i. rewrite Hlook. case_decide.
    + intros [= ->]. by apply Hp2.
    + intros Hi%Hfast. destruct Hflag as [->|[-> _]]; done.
  - intros i err waited. rewrite Hlook. case_decide.
    + intros [= ->]. by apply Hp3.
    + apply Hfail.
Qed.

Lemma act_consistent s a s' : consistent s → act s a = Some s' → consistent s'.
Proof.
  intros Hs. destruct a as [|j|j ok|j]; simpl.
  - intros [= <-]. destruct Hs as (H01 & Hset & Hfast & Hfail).
    unfold consistent; simpl. split; [done|]. split; [|split].
    + rewrite Hset. split; intros [i Hi]; exists i.
      * apply snoc_lookup_Some. by left.
      * apply snoc_lookup_Some in Hi as [?|[_ ?]]; done.
    + intros i [?|[_ ?]]%snoc_lookup_Some; [by eapply Hfast|done].
    + intros i err waited [?|[_ ?]]%snoc_lookup_Some; [by eapply Hfail|done].
  - destruct (runs s !! j) as [[| | |]|] eqn:Hj; try done.
    case_bool_decide as Hpos; intros [= <-]; unfold set_run.
    + apply (consistent_set s j _ Called); try done; [by left|].
      intros _. destruct Hs as ([?|?] & _); [lia|done].
    + apply (consistent_set s j _ Called); try done. by left.
  - destruct (runs s !! j) as [[| | |]|] eqn:Hj; try done.
    destruct ok; intros [= <-]; unfold set_run.
    + apply (consistent_set s j _ Waiting); try done. by left.
    + apply (consistent_set s j _ Waiting); try done; [by left|].
      by intros err waited [= <- <-].
  - destruct (runs s !! j) as [[| | |]|] eqn:Hj; try done.
    intros [= <-].
    apply (consistent_set s j _ Synced); try done. by right.
Qed.

Lemma run_consistent sched s s' :
  consistent s → run s sched = Some s' → consistent s'.
Proof.
  revert s. induction sched as [|a sched IH]; intros s Hs; simpl.
  - by intros [= <-].
  - destruct (act s a) as [s1|] eqn:Hact; [|done].
    apply IH. by apply (act_consistent s a).
Qed.

Lemma startup_consistent : consistent startup.
Proof.
  unfold consistent, startup; simpl.
  split; [by left|]. split; [|split].
  - split; [done|]. by intros [i ?].
  - by intros i.
  - by intros i err waited.
Qed.

(** A check that has returned stays as it returned. *)
Lemma act_done_stable s a s' i err waited :
  runs s !! i = Some (Done err waited) → act s a = Some s' →
  runs s' !! i = Some (Done err waited).
Proof.
  intros Hi. destruct a as [|j|j ok|j]; simpl.
  - intros [= <-]; simpl. by apply lookup_app_l_Some.
  - destruct (runs s !! j) as [[| | |]|] eqn:Hj; try done.
    assert (j ≠ i) by (intros ->; congruence).
    case_bool_decide; intros [= <-]; simpl; by rewrite list_lookup_insert_ne.
  - destruct (runs s !! j) as [[| | |]|] eqn:Hj; try done.
    assert (j ≠ i) by (intros ->; congruence).
    destruct ok; intros [= <-]; simpl; by rewrite list_lookup_insert_ne.
  - destruct (runs s !! j) as [[| | |]|] eqn:Hj; try done.
    assert (j ≠ i) by (intros ->; congruence).
    intros [= <-]; simpl. by rewrite list_lookup_insert_ne.
Qed.

Lemma run_done_stable sched s s' i err waited :
  runs s !! i = Some (Done err waited) → run s sched = Some s' →
  runs s' !! i = Some (Done err waited).
Proof.
  revert s. induction sched as [|a sched IH]; intros s Hi; simpl.
  - by intros [= <-].
  - destruct (act s a) as [s1|] eqn:Hact; [|done].
    apply IH. by apply (act_done_stable s a).
Qed.

(** Once a check has returned nil, the variable is set. *)
Lemma succeeded_is_set s i waited :
  consistent s → runs s !! i = Some (Done None waited) → wasCacheSynced s = 1.
Proof.
  intros (_ & Hset & Hfast & _) Hi. destruct waited.
  - apply Hset. by exists i.
  - by apply (Hfast i).
Qed.

(** C9, as the code has it. The readiness check latches: once a check has
    succeeded — it has returned nil, after its wait for the cache sync or on
    the fast path — the shared variable is 1 and stays 1 whatever the checks
    do afterwards, the check that succeeded stays succeeded, and every check
    that has not loaded the variable by then — one that was called but did
    not load it yet, or one that starts later — takes the fast path: its
    load is its only step, after which it has returned nil without waiting
    for the cache. Run alone on the variable as it then is, a check returns
    nil at once and leaves the variable as it is. *)
Theorem C9_readiness_latches sched s i waited :
  run startup sched = Some s →
  runs s !! i = Some (Done None waited) →
  wasCacheSynced s = 1
  ∧ (∀ sched' s', run s sched' = Some s' →
       wasCacheSynced s' = 1
       ∧ runs s' !! i = Some (Done None waited)
       ∧ (∀ j, not_loaded (runs s !! j) →
            runs s' !! j = None ∨ runs s' !! j = Some Called
            ∨ runs s' !! j = Some (Done None false))
       ∧ ∀ j, runs s' !! j = Some Called →
           act s' (LoadSynced j) = Some (set_run s' j (Done None false)))
  ∧ ∀ ok, readyCheck (wasCacheSynced s) ok = (wasCacheSynced s, None, false).
Proof.
  intros Hrun Hi.
  pose proof (run_consistent sched startup s startup_consistent Hrun) as Hs.
  pose proof (succeeded_is_set s i waited Hs Hi) as Hone.
  assert (0 < wasCacheSynced s) as Hset by lia.
  split; [done|]. split.
  - intros sched' s' Hrun'.
    pose proof (run_consistent sched' s s' Hs Hrun') as Hs'.
    pose proof (run_done_stable sched' s s' i None waited Hi Hrun') as Hi'.
    pose proof (succeeded_is_set s' i waited Hs' Hi') as Hone'.
    split; [done|]. split; [done|]. split.
    + intros j Hj.
      assert (fast (runs s !! j)) as Hfast
        by (destruct Hj as [Hj|Hj]; [by left|right; by left]).
      by destruct (run_latched sched' s s' j Hset Hfast Hrun') as [_ ?].
    + intros j Hj. simpl. rewrite Hj, Hone'. by rewrite bool_decide_eq_true_2.
  - intros ok. unfold readyCheck. rewrite Hone. by rewrite bool_decide_eq_true_2.
Qed.

(** C9 as stated fails when two requests overlap. Both checks load 0 and
    wait; the first stores 1 and returns nil. The second one, still
    waiting, then sees its wait return and stores 1 again: a check that
    ends after a successful one has waited for the cache, and the variable
    is stored twice. *)
Lemma C9_counterexample_overlapping_checks :
  run startup first_check_done = Some first_returned
  ∧ run first_returned second_check_done = Some both_returned
  ∧ runs first_returned !! 0%nat = Some (Done None true)
  ∧ runs both_returned !! 1%nat = Some (Done None true)
  ∧ length (List.filter is_store (first_check_done ++ second_check_done)) = 2%nat.
Proof. repeat split; reflexivity. Qed.

Lemma C9_witness :
  run startup checks_in_turn = Some two_checks_done
  ∧ runs two_checks_done !! 1%nat = Some (Done None true)
  ∧ run two_checks_done third_check = Some three_checks_done
  ∧ wasCacheSynced three_checks_done = 1
  ∧ (runs three_checks_done !! 2%nat = None
     ∨ runs three_checks_done !! 2%nat = Some Called
     ∨ runs three_checks_done !! 2%nat = Some (Done None false)).
Proof.
  destruct (C9_readiness_latches checks_in_turn two_checks_done 1%nat true
              eq_refl eq_refl)
    as (_ & Hlatched & _).
  destruct (Hlatched third_check three_checks_done eq_refl) as (Hset & _ & Hfast & _).
  split; [reflexivity|]. split; [reflexivity|]. split; [reflexivity|].
  split; [exact Hset|].
  apply (Hfast 2%nat). left; reflexivity.
Defined.

(** * More properties of package [manager] *)

(** ** [getClientCacheOptions], when it succeeds *)

Lemma disableLoop_inr objects co co' :
  disableLoop objects co = inr co' →
  ∃ objs, DisableFor co' = DisableFor co ++ objs
    ∧ Forall2 (fun name o => cacheClientObjectsByName !! name = Some o) objects objs.
Proof.
  revert co. induction objects as [|object objects IH]; intros co; simpl.
  - intros [= <-]. exists []. by rewrite app_nil_r.
  - destruct (cacheClientObjectsByName !! object) as [o|] eqn:Hlook; [|done].
    intros (objs & Heq & Hall)%IH. simpl in Heq.
    exists (o :: objs). rewrite Heq, <-(assoc_L (++)). split; [done|].
    by constructor.
Qed.

Lemma disableLoop_supported objects co :
  (∀ x, x ∈ objects → x ∈ supported) → ∃ co', disableLoop objects co = inr co'.
Proof.
  revert co. induction objects as [|object objects IH]; intros co Hall; simpl.
  - by exists co.
  - destruct (cacheClientObjectsByName !! object) as [o|] eqn:Hlook.
    + apply IH. intros x Hx. apply Hall. by right.
    + apply cacheClientObjectsByName_None in Hlook. destruct Hlook.
      apply Hall. by left.
Qed.

(** X8. [getClientCacheOptions] succeeds exactly when every comma-separated
    entry of the value is a supported name; the cache is then disabled for
    one object per entry, in the order of the entries, a repeated entry
    being kept as often as it occurs. *)
Theorem X8_cache_options_follow_entries s :
  ((∀ x, entry_of x s → x ∈ supported) ↔ ∃ co, getClientCacheOptions s = inr co)
  ∧ ∀ co, getClientCacheOptions s = inr co → s ≠ EmptyString →
      Forall2 (fun name o => cacheClientObjectsByName !! name = Some o)
        (Split s ",") (DisableFor co).
Proof.
  split.
  - split.
    + intros Hall. unfold getClientCacheOptions. case_bool_decide; [|by eexists].
      apply disableLoop_supported. intros x Hx. apply Hall, entry_of_Split.
      split; [|done]. intros ->. simpl in *. lia.
    + intros [co Hco] x Hx.
      destruct (decide (x ∈ supported)) as [|Hno]; [done|].
      destruct (getClientCacheOptions_unsupported s x Hx Hno) as (y & _ & _ & Herr).
      congruence.
  - intros co Hco Hs. revert Hco. unfold getClientCacheOptions.
    rewrite bool_decide_eq_true_2 by (destruct s; [done|simpl; lia]).
    by intros (objs & -> & Hall)%disableLoop_inr.
Qed.

(** ** [configureTLS] and the option it returns *)

(** X9. [configureTLS] returns no option when mTLS is off, whatever the
    other flags; it returns exactly one option when mTLS and TLS are on; and
    it panics when mTLS is on and TLS is off. The option it returns never
    yields a configuration that does not require and verify client
    certificates; without a CA name it leaves the client CAs as they were;
    with one it installs the pool of the file read from the certificate
    directory, and it panics, naming the file, exactly when that file
    cannot be read or holds no certificate. *)
Theorem X9_mtls_option_requires_client_certs f fs cfg :
  (mtlsEnable f = false → configureTLS f = inr [])
  ∧ (mtlsEnable f = true → tlsEnable f = true → configureTLS f = inr [mtlsOption f])
  ∧ (mtlsEnable f = true → tlsEnable f = false →
     configureTLS f
     = inl (panic_msg "-tls.enable flag must be set before using mtls.enable"))
  ∧ (∀ opts, configureTLS f = inr opts →
       (mtlsEnable f = false ∧ opts = [])
       ∨ (mtlsEnable f = true ∧ tlsEnable f = true ∧ opts = [mtlsOption f]))
  ∧ match mtlsOption f fs cfg with
    | inr cfg' =>
        ClientAuth cfg' = RequireAndVerifyClientCert
        ∧ (mtlsCAFile f = EmptyString → ClientCAs cfg' = ClientCAs cfg)
        ∧ (mtlsCAFile f ≠ EmptyString →
           ∃ caPEM, os_ReadFile fs (path_Join fs (tlsCertsDir f) (mtlsCAFile f)) = inr caPEM
             ∧ AppendCertsFromPEM fs caPEM = true
             ∧ ClientCAs cfg' = Some caPEM)
    | inl p =>
        mtlsCAFile f ≠ EmptyString
        ∧ ((∃ err, os_ReadFile fs (path_Join fs (tlsCertsDir f) (mtlsCAFile f)) = inl err
              ∧ p = panic_Sprintf "cannot read tlsCAFile=%q: %s"
                      (path_Join fs (tlsCertsDir f) (mtlsCAFile f)) (error_text err))
           ∨ ∃ caPEM, os_ReadFile fs (path_Join fs (tlsCertsDir f) (mtlsCAFile f)) = inr caPEM
               ∧ AppendCertsFromPEM fs caPEM = false
               ∧ p = panic_Sprintf "cannot parse data for tlsCAFile=%q: %s"
                       (path_Join fs (tlsCertsDir f) (mtlsCAFile f)) caPEM)
    end.
Proof.
  split; [|split; [|split; [|split]]].
  - intros Hm. unfold configureTLS. by rewrite Hm.
  - intros Hm Ht. unfold configureTLS. by rewrite Hm, Ht.
  - intros Hm Ht. unfold configureTLS. by rewrite Hm, Ht.
  - intros opts. unfold configureTLS.
    destruct (mtlsEnable f); [|intros [= <-]; by left].
    destruct (tlsEnable f); [|done]. intros [= <-]. by right.
  - unfold mtlsOption. case_bool_decide as Hca; simpl.
    + destruct (os_ReadFile fs _) as [err|caPEM] eqn:Hread; simpl.
      { split; [done|]. left. by exists err. }
      destruct (AppendCertsFromPEM fs caPEM) eqn:Hpem; simpl.
      * split; [done|]. split; [done|]. intros _. by exists caPEM.
      * split; [done|]. right. by exists caPEM.
    + split; [done|]. split; [done|]. intros Hne. destruct Hca. done.
Qed.

(** ** [addWebhooks] *)

Lemma forEach_try_ok {A} (l : list A) (f : A → Step) (res : A → option error) wrap :
  (∀ x, x ∈ l → res x = None) →
  forEach l (fun x => try (f x) (res x) wrap) = (f <$> l, inr tt).
Proof.
  induction l as [|x l IH]; intros Hall; simpl; [done|].
  change (forEach (x :: l) (fun x => try (f x) (res x) wrap))
    with (try (f x) (res x) wrap ≫= fun _ => forEach l (fun x => try (f x) (res x) wrap)).
  rewrite IH by (intros y Hy; apply Hall; by right).
  by rewrite (Hall x) by (by left).
Qed.

Lemma forEach_try_fail {A} (l pre post : list A) x (f : A → Step)
    (res : A → option error) wrap err :
  l = pre ++ x :: post → (∀ y, y ∈ pre → res y = None) → res x = Some err →
  forEach l (fun x => try (f x) (res x) wrap)
  = (f <$> (pre ++ [x]), inl (Returns (Some (wrap err)))).
Proof.
  intros -> Hpre Hx. induction pre as [|y pre IH]; simpl.
  - change (forEach (x :: post) (fun x => try (f x) (res x) wrap))
      with (try (f x) (res x) wrap ≫= fun _ => forEach post (fun x => try (f x) (res x) wrap)).
    by rewrite Hx.
  - change (forEach (y :: pre ++ x :: post) (fun x => try (f x) (res x) wrap))
      with (try (f y) (res y) wrap
            ≫= fun _ => forEach (pre ++ x :: post) (fun x => try (f x) (res x) wrap)).
    rewrite IH by (intros z Hz; apply Hpre; by right).
    by rewrite (Hpre y) by (by left).
Qed.

Lemma forEach_try_inr {A} (l : list A) (f : A → Step) (res : A → option error) wrap u :
  (forEach l (fun x => try (f x) (res x) wrap)).2 = inr u →
  ∀ x, x ∈ l → res x = None.
Proof.
  induction l as [|x l IH]; simpl; [by intros _ y ?%elem_of_nil|].
  change (forEach (x :: l) (fun x => try (f x) (res x) wrap))
    with (try (f x) (res x) wrap ≫= fun _ => forEach l (fun x => try (f x) (res x) wrap)).
  destruct (res x) as [err|] eqn:Hx; [intros Hno; by vm_compute in Hno|].
  destruct (forEach l _) as [tr [o|[]]] eqn:Hrest; [intros Hno; by vm_compute in Hno|].
  intros _ y [->|Hy]%elem_of_cons; [done|]. apply IH; [by destruct u|done].
Qed.

(** The steps after the webhooks. *)
Lemma after_webhooks_phase e s :
  s ∈ (step SetLabelAndAnnotationPrefixes ;; setupControllers e ;; startManager e).1 →
  (4 ≤ phase s)%nat.
Proof.
  intros [Hlab|(_ & _ & [Hctl|(_ & _ & Hstart)]%elem_of_bind)]%elem_of_bind.
  - apply list_elem_of_singleton in Hlab. subst s. simpl. lia.
  - apply elem_of_forEach in Hctl as (k & _ & Hin).
    rewrite try_trace, list_elem_of_singleton in Hin. subst s. simpl. lia.
  - revert Hstart. unfold startManager.
    repeat (intros [Hin|(_ & _ & Hin)]%elem_of_bind;
            [first [rewrite try_trace in Hin | idtac];
             apply list_elem_of_singleton in Hin; subst s; simpl; lia
            |revert Hin]).
    destruct (env_mgr_Start e); by intros ?%elem_of_nil.
Qed.

(** X10. [addWebhooks] registers the webhooks in the order of its list and
    stops at the first registration that fails, returning its error as it
    is: the objects after it are not tried. When none fails, all ten are
    registered. In [RunManager] a webhook is only registered when webhooks
    are enabled. *)
Theorem X10_addWebhooks_stops_at_first_failure e :
  ((∀ obj, obj ∈ webhookObjects → env_WebhookComplete e obj = None) →
   addWebhooks e = (WebhookComplete <$> webhookObjects, inr tt))
  ∧ (∀ pre obj post err,
       webhookObjects = pre ++ obj :: post →
       (∀ o, o ∈ pre → env_WebhookComplete e o = None) →
       env_WebhookComplete e obj = Some err →
       addWebhooks e = (WebhookComplete <$> (pre ++ [obj]), inl (Returns (Some err))))
  ∧ ∀ obj, WebhookComplete obj ∈ (RunManager e).1 →
      enableWebhooks (flags e) = true ∧ obj ∈ webhookObjects.
Proof.
  split; [|split].
  - intros Hall. unfold addWebhooks. by apply forEach_try_ok.
  - intros pre obj post err Hsplit Hpre Hobj. unfold addWebhooks.
    by rewrite (forEach_try_fail webhookObjects pre post obj _ _ id err Hsplit Hpre Hobj).
  - intros obj Hin.
    assert (WebhookComplete obj ∈ (runManager e).1) as Hrun.
    { revert Hin. unfold RunManager. by destruct (runManager e) as [tr [o|[]]]. }
    clear Hin. unfold runManager in Hrun.
    apply elem_of_bind in Hrun as [Hin|([co tlsOpts] & _ & Hin)].
    { by apply prepare_phase in Hin. }
    apply elem_of_bind in Hin as [Hin|(_ & _ & Hin)].
    { by apply createManager_phase in Hin. }
    apply elem_of_bind in Hin as [Hin|(_ & _ & Hin)].
    { by apply initCRDOwnership_phase in Hin. }
    unfold registerAndStart in Hin.
    apply elem_of_bind in Hin as [Hin|(_ & _ & Hin)].
    + destruct (enableWebhooks (flags e)); [|by apply elem_of_nil in Hin].
      split; [done|]. apply elem_of_forEach in Hin as (obj' & Hobj' & Hin).
      rewrite try_trace, list_elem_of_singleton in Hin. by injection Hin as ->.
    + apply after_webhooks_phase in Hin. simpl in Hin. lia.
Qed.

(** ** A start-up that reaches [mgr.Start] *)

Lemma bind_inr_eq {A B} (m : M A) (k : A → M B) t a :
  m = (t, inr a) → m ≫= k = (t ++ (k a).1, (k a).2).
Proof. intros ->. simpl. by destruct (k a). Qed.

Lemma try_inr s res wrap u : (try s res wrap).2 = inr u → res = None.
Proof. destruct res; [intros Hno; by vm_compute in Hno|done]. Qed.

Lemma createManager_inr e co tlsOpts u :
  (createManager e co tlsOpts).2 = inr u →
  env_NewManager e = None ∧ env_AddReadyzCheck e = None ∧ env_AddHealthzCheck e = None.
Proof.
  unfold createManager.
  destruct (env_NewManager e); [intros Hno; by vm_compute in Hno|].
  destruct (env_AddReadyzCheck e); [intros Hno; by vm_compute in Hno|].
  destruct (env_AddHealthzCheck e); [intros Hno; by vm_compute in Hno|done].
Qed.

Lemma start_needs_health e : MgrStart ∈ (RunManager e).1 → healthy e.
Proof.
  intros Hin.
  assert (MgrStart ∈ (runManager e).1) as Hrun.
  { revert Hin. unfold RunManager. by destruct (runManager e) as [tr [o|[]]]. }
  clear Hin. unfold runManager in Hrun.
  apply elem_of_bind in Hrun as [Hin|([co tlsOpts] & Hprep & Hin)].
  { by apply prepare_phase in Hin. }
  destruct (prepare_result e co tlsOpts Hprep) as (Hstarts & Hco & Htls).
  apply elem_of_bind in Hin as [Hin|(u1 & Hcreate & Hin)].
  { by apply createManager_phase in Hin. }
  apply createManager_inr in Hcreate as (Hmgr & Hready & Hhealth).
  apply elem_of_bind in Hin as [Hin|(u2 & Hinit & Hin)].
  { by apply initCRDOwnership_phase in Hin. }
  unfold registerAndStart in Hin.
  apply elem_of_bind in Hin as [Hin|(u3 & Hweb & Hin)].
  { destruct (enableWebhooks (flags e)); [|by apply elem_of_nil in Hin].
    apply elem_of_forEach in Hin as (obj & _ & Hin).
    rewrite try_trace, list_elem_of_singleton in Hin. discriminate Hin. }
  apply elem_of_bind in Hin as [Hin|(u4 & _ & Hin)].
  { apply list_elem_of_singleton in Hin. discriminate Hin. }
  apply elem_of_bind in Hin as [Hin|(u5 & Hctl & Hin)].
  { apply elem_of_forEach in Hin as (k & _ & Hin).
    rewrite try_trace, list_elem_of_singleton in Hin. discriminate Hin. }
  unfold startManager in Hin.
  apply elem_of_bind in Hin as [Hin|(u6 & Hcfg%try_inr & Hin)].
  { rewrite try_trace, list_elem_of_singleton in Hin. discriminate Hin. }
  apply elem_of_bind in Hin as [Hin|(u7 & Hver%try_inr & Hin)].
  { rewrite try_trace, list_elem_of_singleton in Hin. discriminate Hin. }
  apply elem_of_bind in Hin as [Hin|(u8 & _ & Hin)].
  { apply list_elem_of_singleton in Hin. discriminate Hin. }
  apply elem_of_bind in Hin as [Hin|(u9 & Hwatch%try_inr & Hin)].
  { rewrite try_trace, list_elem_of_singleton in Hin. discriminate Hin. }
  apply elem_of_bind in Hin as [Hin|(u10 & Hconv%try_inr & Hin)].
  { rewrite try_trace, list_elem_of_singleton in Hin. discriminate Hin. }
  apply elem_of_bind in Hin as [Hin|(u11 & Hadd%try_inr & Hin)].
  { rewrite try_trace, list_elem_of_singleton in Hin. discriminate Hin. }
  split; [done|]. split; [by exists co|]. split.
  { revert Htls. unfold configureTLS. intros Hopts Hm. rewrite Hm in Hopts.
    by destruct (tlsEnable (flags e)). }
  repeat (split; [done|]). split.
  { intros Howns. revert Hinit. rewrite initCRDOwnership_cases, Howns.
    destruct (env_client_New e); [done|]. by destruct (env_Init e). }
  split.
  { intros Hen. rewrite Hen in Hweb. unfold when, addWebhooks in Hweb.
    by apply (forEach_try_inr _ _ _ _ _ Hweb). }
  split; [|done].
  unfold setupControllers in Hctl. by apply (forEach_try_inr _ _ _ _ _ Hctl).
Qed.

Lemma health_reaches_start e :
  healthy e →
  ∃ opts, RunManager e = (healthy_steps e opts, Returns (env_mgr_Start e)).
Proof.
  intros (Hstarts & [co Hco] & Htls & Hmgr & Hready & Hhealth & Howns & Hweb & Hctl
          & Hcfg & Hver & Hwatch & Hconv & Hadd).
  assert (∃ tlsOpts, configureTLS (flags e) = inr tlsOpts) as [tlsOpts Hopts].
  { unfold configureTLS. destruct (mtlsEnable (flags e)); [|by eexists].
    rewrite Htls by done. by eexists. }
  exists {| SecureServing := tlsEnable (flags e); TLSOpts := tlsOpts;
            LeaderElection := leaderElect (flags e);
            DefaultNamespaces := watchNsCacheByName (env_watchNss e);
            ClientCache := co |}.
  assert (prepare e = (started, inr (co, tlsOpts))) as Hp
    by (by rewrite (prepare_started e Hstarts), Hco, Hopts).
  assert (initCRDOwnership e
          = (if ownsCRDs e then [NewInitClient; InitCRD] else [], inr tt)) as Hi.
  { rewrite initCRDOwnership_cases. destruct (ownsCRDs e); [|done].
    destruct Howns as [-> ->]; done. }
  assert (when (enableWebhooks (flags e)) (addWebhooks e)
          = (if enableWebhooks (flags e) then WebhookComplete <$> webhookObjects else [],
             inr tt)) as Hw.
  { destruct (enableWebhooks (flags e)); [|done]. simpl. unfold addWebhooks.
    apply forEach_try_ok. by apply Hweb. }
  assert (setupControllers e = (SetupWithManager <$> controllers, inr tt)) as Hs
    by (unfold setupControllers; by apply forEach_try_ok).
  unfold RunManager, runManager, registerAndStart.
  rewrite (bind_inr_eq _ _ _ _ Hp). cbn beta iota.
  unfold createManager, startManager.
  rewrite Hmgr, Hready, Hhealth, Hi, Hw, Hs, Hcfg, Hver, Hwatch, Hconv, Hadd.
  unfold healthy_steps.
  destruct (ownsCRDs e), (enableWebhooks (flags e)), (env_mgr_Start e); reflexivity.
Qed.

(** X11. [RunManager] reaches [mgr.Start] exactly when every step before
    it succeeds: the flags ask for neither the version nor the defaults,
    the configuration is found, the cache and TLS options are accepted, and
    no registration fails. It has then created the manager, taken CRD
    ownership if that is on, registered the webhooks if they are on, set up
    the sixteen reconcilers and added the converter, in that order, and it
    returns what [mgr.Start] returns. *)
Theorem X11_start_reached_iff_all_steps_succeed e :
  (MgrStart ∈ (RunManager e).1 ↔ healthy e)
  ∧ (healthy e →
     ∃ opts, RunManager e = (healthy_steps e opts, Returns (env_mgr_Start e))).
Proof.
  split; [|apply health_reaches_start].
  split; [apply start_needs_health|].
  intros [opts Hrun]%health_reaches_start. rewrite Hrun; simpl.
  unfold healthy_steps. rewrite !elem_of_app. do 6 right.
  repeat (rewrite elem_of_cons). naive_solver.
Qed.

(** ** The namespaces of the cache *)

Lemma foldl_insert_lookup (nss : list string) (m : gmap string CacheConfig) ns :
  foldl (fun m ns => <[ns := CacheConfig_zero]> m) m nss !! ns
  = if decide (ns ∈ nss) then Some CacheConfig_zero else m !! ns.
Proof.
  revert m. induction nss as [|x nss IH]; intros m.
  - destruct (decide (ns ∈ [])) as [Hin|_]; [by apply elem_of_nil in Hin|done].
  - change (foldl (fun m ns => <[ns := CacheConfig_zero]> m) m (x :: nss))
      with (foldl (fun m ns => <[ns := CacheConfig_zero]> m)
              (<[x := CacheConfig_zero]> m) nss).
    rewrite IH.
    destruct (decide (ns ∈ nss)) as [Hin|Hnin], (decide (ns ∈ x :: nss)) as [Hin'|Hnin'];
      try done.
    + destruct Hnin'. by right.
    + apply elem_of_cons in Hin' as [->|?]; [|done]. by rewrite lookup_insert_eq.
    + rewrite lookup_insert_ne; [done|]. intros ->. destruct Hnin'. by left.
Qed.

(** The options [ctrl.NewManager] is called with. *)
Lemma NewManager_exact e opts :
  NewManager opts ∈ (RunManager e).1 →
  SecureServing opts = tlsEnable (flags e)
  ∧ LeaderElection opts = leaderElect (flags e)
  ∧ DefaultNamespaces opts = watchNsCacheByName (env_watchNss e).
Proof.
  intros Hin.
  assert (NewManager opts ∈ (runManager e).1) as Hrun.
  { revert Hin. unfold RunManager. by destruct (runManager e) as [tr [o|[]]]. }
  clear Hin. unfold runManager in Hrun.
  apply elem_of_bind in Hrun as [Hin|([co tlsOpts] & Hprep & Hin)].
  { by apply prepare_phase in Hin. }
  apply elem_of_bind in Hin as [Hin|(_ & _ & Hin)].
  - unfold createManager in Hin.
    apply elem_of_bind in Hin as [Hin|(_ & _ & Hin)].
    + rewrite try_trace, list_elem_of_singleton in Hin. by injection Hin as ->.
    + apply elem_of_bind in Hin as [Hin|(_ & _ & Hin)];
        rewrite try_trace, list_elem_of_singleton in Hin; discriminate Hin.
  - apply elem_of_bind in Hin as [Hin|(_ & _ & Hin)].
    + by apply initCRDOwnership_phase in Hin.
    + apply registerAndStart_phase in Hin. simpl in Hin. lia.
Qed.

(** X12. The cache of the manager is restricted to the configured watch
    namespaces: with none configured the map of default namespaces is nil
    (cluster-wide cache); otherwise its keys are exactly the configured
    namespaces, each with the zero cache configuration, however often a
    namespace is repeated. The manager is created with that map, and CRD
    ownership is only ever taken by a manager whose cache is cluster-wide. *)
Theorem X12_cache_namespaces_are_the_watch_namespaces (nss : list string) :
  (watchNsCacheByName nss = None ↔ nss = [])
  ∧ (∀ m, watchNsCacheByName nss = Some m →
       ∀ ns, m !! ns = if decide (ns ∈ nss) then Some CacheConfig_zero else None)
  ∧ ∀ e opts, NewManager opts ∈ (RunManager e).1 →
      DefaultNamespaces opts = watchNsCacheByName (env_watchNss e)
      ∧ (InitCRD ∈ (RunManager e).1 → DefaultNamespaces opts = None).
Proof.
  split; [|split].
  - unfold watchNsCacheByName. case_bool_decide as Hlen.
    + split; [discriminate|]. intros ->. simpl in Hlen. lia.
    + split; [intros _|done]. destruct nss; [done|]. simpl in Hlen. lia.
  - intros m. unfold watchNsCacheByName. case_bool_decide; [|done].
    intros [= <-] ns. by rewrite foldl_insert_lookup, lookup_empty.
  - intros e opts Hin. destruct (NewManager_exact e opts Hin) as (_ & _ & Hns).
    split; [done|]. intros Hinit. rewrite Hns.
    apply (ownership_step e InitCRD eq_refl) in Hinit.
    rewrite initCRDOwnership_cases in Hinit.
    destruct (ownsCRDs e) eqn:Howns; [|by apply elem_of_nil in Hinit].
    apply ownsCRDs_true in Howns as [_ ->]. done.
Qed.

(** ** The readiness check: what its runs say about the variable *)

(** X13. Whatever the requests and however their runs interleave, the
    shared variable tells the truth about the checks: it is 0 or 1; it is 1
    exactly when some run waited for the cache, saw it synced and stored;
    a run that returned nil without waiting had found the variable set; and
    a run only returns an error after it has waited, the error being that
    the cache sync is in progress. *)
Theorem X13_readiness_variable_is_consistent sched s :
  run startup sched = Some s → consistent s.
Proof.
  assert (∀ s0, consistent s0 → run s0 sched = Some s → consistent s) as Hrun.
  { induction sched as [|a sched IH]; intros s0 Hs0; simpl.
    - by intros [= <-].
    - destruct (act s0 a) as [s1|] eqn:Hact; [|done].
      apply IH. by apply (act_consistent s0 a). }
  apply Hrun. unfold consistent, startup; simpl.
  split; [by left|]. split; [|split].
  - split; [done|]. by intros [i ?].
  - by intros i.
  - by intros i err waited.
Qed.

(** ** The latency metric *)

Import Metrics.

Lemma HasPrefix_app s p rest :
  HasPrefix s p = true → HasPrefix (s +:+ rest) p = true.
Proof.
  revert s. induction p as [|c p IH]; intros s; simpl; [done|].
  destruct s as [|c' s]; simpl; [done|].
  intros [-> Hp]%andb_true_iff. by rewrite (IH s Hp).
Qed.

Lemma HasPrefix_trans s p p' :
  HasPrefix s p = true → HasPrefix p p' = true → HasPrefix s p' = true.
Proof.
  revert s p. induction p' as [|c p' IH]; intros s p; simpl; [done|].
  destruct p as [|c1 p]; simpl; [done|].
  destruct s as [|c2 s]; simpl; [done|].
  intros [Hc2 Hs]%andb_true_iff [Hc1 Hp]%andb_true_iff.
  apply Ascii.eqb_eq in Hc2, Hc1. subst.
  rewrite Ascii.eqb_refl. simpl. by apply (IH s p).
Qed.

Lemma shouldObserve_true allowList apiPath :
  shouldObserve allowList apiPath = true ↔
  ∃ p, p ∈ allowList ∧ HasPrefix apiPath p = true.
Proof.
  induction allowList as [|p allowList IH]; simpl.
  - split; [done|]. by intros (p & ?%elem_of_nil & _).
  - destruct (HasPrefix apiPath p) eqn:Hp.
    + split; [|done]. intros _. exists p. split; [by left|done].
    + rewrite IH. split.
      * intros (p' & ? & ?). exists p'. split; [by right|done].
      * intros (p' & [->|?]%elem_of_cons & Hp'); [congruence|]. by exists p'.
Qed.

(** X14. [Observe] records the latency of a request exactly when the path
    of its URL starts with one of the four allow-listed prefixes, and then
    under the verb and the whole path as labels. So only paths under [/api]
    are ever recorded, and a path below a recorded path is recorded
    too. *)
Theorem X14_latency_observed_under_allowed_prefixes verb u_Path latency :
  (Observe verb u_Path latency = None
   ∨ Observe verb u_Path latency = Some (verb, u_Path, latency))
  ∧ (Observe verb u_Path latency ≠ None ↔
     ∃ p, p ∈ apiLatencyPrefixAllowList ∧ HasPrefix u_Path p = true)
  ∧ (Observe verb u_Path latency ≠ None →
     HasPrefix u_Path "/api" = true
     ∧ ∀ rest, Observe verb (u_Path +:+ rest) latency
               = Some (verb, u_Path +:+ rest, latency)).
Proof.
  assert (Observe verb u_Path latency ≠ None ↔
          ∃ p, p ∈ apiLatencyPrefixAllowList ∧ HasPrefix u_Path p = true) as Hiff.
  { rewrite <-shouldObserve_true. unfold Observe.
    by destruct (shouldObserve apiLatencyPrefixAllowList u_Path). }
  split; [|split; [done|]].
  - unfold Observe. destruct (shouldObserve _ _); [by right|by left].
  - intros (p & Hp & Hpre)%Hiff. split.
    + apply (HasPrefix_trans _ p); [done|]. revert Hp. unfold apiLatencyPrefixAllowList.
      rewrite !elem_of_cons, elem_of_nil. by intros [->|[->|[->|[->|[]]]]].
    + intros rest. unfold Observe.
      assert (shouldObserve apiLatencyPrefixAllowList (u_Path +:+ rest) = true) as ->; [|done].
      apply shouldObserve_true. exists p. split; [done|]. by apply HasPrefix_app.
Qed.

(** ** The generated client *)

Import Client.

(** X15. Every request the client of a namespace builds addresses the
    resource [vmstaticscrapes] in that namespace, whatever the call and its
    arguments; the calls on one object name that object — [Update] and
    [UpdateStatus] by the name the object itself carries — and the calls on
    the collection name none. [Watch] sends the request of [List] with the
    watch option forced on. *)
Theorem X15_requests_stay_in_namespace_and_resource ns call :
  namespace (requestOf ns call) = ns
  ∧ resource (requestOf ns call) = "vmstaticscrapes"
  ∧ name (requestOf ns call) = addressed call
  ∧ ∀ opts, requestOf ns (CallWatch opts) = requestOf ns (CallList (watching opts))
            ∧ Watch (watching opts) = true.
Proof. by destruct call. Qed.

Lemma wrap64_small z : - 2 ^ 63 ≤ z < 2 ^ 63 → wrap64 z = z.
Proof. intros Hz. unfold wrap64. rewrite Z.mod_small by lia. lia. Qed.

(** X16. The timeout of [List], [Watch] and [DeleteCollection] is zero when
    [TimeoutSeconds] is not set. When it is set to at most 9223372036
    seconds in absolute value, the timeout is that many seconds in
    nanoseconds; beyond that the multiplication overflows [int64], and one
    second more already gives a negative timeout. *)
Theorem X16_timeout_in_nanoseconds_until_overflow (seconds : Z) :
  timeoutOf None = 0
  ∧ (- 9223372036 ≤ seconds ≤ 9223372036 →
     timeoutOf (Some seconds) = seconds * 1000000000)
  ∧ - 2 ^ 63 ≤ timeoutOf (Some seconds) < 2 ^ 63
  ∧ timeoutOf (Some 9223372037) < 0
  ∧ ∀ ns opts del,
      timeout (requestOf ns (CallList opts)) = timeoutOf (TimeoutSeconds opts)
      ∧ timeout (requestOf ns (CallWatch opts)) = timeoutOf (TimeoutSeconds opts)
      ∧ timeout (requestOf ns (CallDeleteCollection del opts))
        = timeoutOf (TimeoutSeconds opts).
Proof.
  split; [done|]. split; [|split; [|split; [|done]]].
  - intros Hs. unfold timeoutOf, Second. apply wrap64_small. lia.
  - unfold timeoutOf, wrap64.
    pose proof (Z.mod_pos_bound (seconds * Second + 2 ^ 63) (2 ^ 64)). lia.
  - by vm_compute.
Qed.

(** [configureTLS] on the default flags returns no option; with mTLS and
    TLS on it returns its one option; with mTLS alone it panics. *)
Lemma X9_witness :
  configureTLS defaultFlags = inr []
  ∧ configureTLS (flags_mtls "ca.crt") = inr [mtlsOption (flags_mtls "ca.crt")]
  ∧ configureTLS flags_mtls_only
    = inl (panic_msg "-tls.enable flag must be set before using mtls.enable").
Proof.
  split; [|split].
  - apply (X9_mtls_option_requires_client_certs defaultFlags files no_client_cert).
    reflexivity.
  - apply (X9_mtls_option_requires_client_certs (flags_mtls "ca.crt") files no_client_cert);
      reflexivity.
  - apply (X9_mtls_option_requires_client_certs flags_mtls_only files no_client_cert);
      reflexivity.
Defined.

(** ** The further properties on example start-ups *)

Lemma X10_witness :
  addWebhooks env_webhook_fails
  = (WebhookComplete <$> [VMAgentK; VMAlertK; VMSingleK; VMClusterK],
     inl (Returns (Some (ExternalError false "no certificate")))).
Proof.
  destruct (X10_addWebhooks_stops_at_first_failure env_webhook_fails)
    as (_ & Hstops & _).
  apply (Hstops [VMAgentK; VMAlertK; VMSingleK] VMClusterK
           [VLogsK; VMAlertmanagerK; VMAlertmanagerConfigK; VMAuthK; VMUserK; VMRuleK]
           (ExternalError false "no certificate")); [reflexivity| |reflexivity].
  intros o Ho.
  repeat (apply elem_of_cons in Ho as [->|Ho]; [reflexivity|]).
  by apply elem_of_nil in Ho.
Defined.

Lemma X11_witness :
  ∃ opts,
    RunManager (env defaultFlags [])
    = (healthy_steps (env defaultFlags []) opts, Returns None).
Proof.
  destruct (X11_start_reached_iff_all_steps_succeed (env defaultFlags []))
    as [_ Hruns].
  apply Hruns. unfold healthy.
  split; [by repeat split|]. split; [by eexists|].
  repeat (split; [done|]). done.
Defined.

Lemma X13_witness : consistent both_returned.
Proof.
  apply (X13_readiness_variable_is_consistent
           (first_check_done ++ second_check_done) both_returned).
  reflexivity.
Defined.
